(** * arduino-serial: the device sketch and the host connection

    A shallow embedding of [serial_sketch.ino] (the Arduino side) and of
    the host-side command table behind [ArduinoSerialConnection].

    The sketch keeps its command values in module-level [int] variables
    and drives its actuators through library objects ([Servo],
    [Adafruit_DCMotor]) and through the serial helpers [sendInitMessage]
    and [sendUpdateMessage].  The embedding threads one [Device] record
    through every function: the globals are its fields, and each call
    that leaves the sketch is appended to its [trace].

    An Arduino [int] is 16 bits wide.  The handlers only compare, clamp
    and negate an already clamped value, so no operation on an [int] can
    wrap and the values are plain [Z].  The two timers are [unsigned long]
    and their subtraction does wrap; it is written out in [checkForBlink]. *)

From Stdlib Require Import ZArith List Bool Lia.
From stdpp Require Import gmap strings list fin_maps.

Local Open Scope Z_scope.

Module Sketch.

(** ** Outside world *)

Inductive ServoId := Servo01 | Servo02.
Inductive MotorId := Motor01 | Motor02.

(** The run modes of [Adafruit_DCMotor::run] the sketch uses. *)
Inductive MotorMode := FORWARD | BACKWARD | RELEASE.

(** One call that leaves the sketch. *)
Inductive Event :=
| ServoWrite (s : ServoId) (pos : Z)          (* servoNN.write(pos)      *)
| MotorSetSpeed (m : MotorId) (speed : Z)     (* motor->setSpeed(speed)  *)
| MotorRun (m : MotorId) (mode : MotorMode)   (* motor->run(mode)        *)
| DigitalWrite (pin : Z) (level : Z)          (* digitalWrite(pin,level) *)
| InitMessage (name : string) (value : Z)     (* sendInitMessage         *)
| UpdateMessage (name : string) (value : Z).  (* sendUpdateMessage       *)

Definition LOW : Z := 0.
Definition HIGH : Z := 1.

(** ** Globals of the sketch *)

Definition BLINK : string := "BLINK".
Definition SERVO_01 : string := "SRV1".
Definition SERVO_02 : string := "SRV2".
Definition MOTOR_01 : string := "MTR1".
Definition MOTOR_02 : string := "MTR2".

Definition led : Z := 13.

Record Device := mkDevice {
  blinkIntervalInit : Z;
  blinkInterval : Z;
  ledState : Z;
  previousLedStateChange : Z;
  servo01Init : Z;
  servo02Init : Z;
  motor01Init : Z;
  motor02Init : Z;
  trace : list Event   (* oldest call first *)
}.

Definition set_blinkIntervalInit (v : Z) (d : Device) : Device :=
  mkDevice v (blinkInterval d) (ledState d) (previousLedStateChange d)
    (servo01Init d) (servo02Init d) (motor01Init d) (motor02Init d) (trace d).

Definition set_blinkInterval (v : Z) (d : Device) : Device :=
  mkDevice (blinkIntervalInit d) v (ledState d) (previousLedStateChange d)
    (servo01Init d) (servo02Init d) (motor01Init d) (motor02Init d) (trace d).

Definition set_ledState (v : Z) (d : Device) : Device :=
  mkDevice (blinkIntervalInit d) (blinkInterval d) v (previousLedStateChange d)
    (servo01Init d) (servo02Init d) (motor01Init d) (motor02Init d) (trace d).

Definition set_previousLedStateChange (v : Z) (d : Device) : Device :=
  mkDevice (blinkIntervalInit d) (blinkInterval d) (ledState d) v
    (servo01Init d) (servo02Init d) (motor01Init d) (motor02Init d) (trace d).

Definition set_servo01Init (v : Z) (d : Device) : Device :=
  mkDevice (blinkIntervalInit d) (blinkInterval d) (ledState d)
    (previousLedStateChange d)
    v (servo02Init d) (motor01Init d) (motor02Init d) (trace d).

Definition set_servo02Init (v : Z) (d : Device) : Device :=
  mkDevice (blinkIntervalInit d) (blinkInterval d) (ledState d)
    (previousLedStateChange d)
    (servo01Init d) v (motor01Init d) (motor02Init d) (trace d).

Definition set_motor01Init (v : Z) (d : Device) : Device :=
  mkDevice (blinkIntervalInit d) (blinkInterval d) (ledState d)
    (previousLedStateChange d)
    (servo01Init d) (servo02Init d) v (motor02Init d) (trace d).

Definition set_motor02Init (v : Z) (d : Device) : Device :=
  mkDevice (blinkIntervalInit d) (blinkInterval d) (ledState d)
    (previousLedStateChange d)
    (servo01Init d) (servo02Init d) (motor01Init d) v (trace d).

(** Append one outgoing call to the trace. *)
Definition emit (e : Event) (d : Device) : Device :=
  mkDevice (blinkIntervalInit d) (blinkInterval d) (ledState d)
    (previousLedStateChange d)
    (servo01Init d) (servo02Init d) (motor01Init d) (motor02Init d)
    (trace d ++ [e]).

(** The values the declarations give the globals, before [setup]. *)
Definition bootDevice : Device :=
  mkDevice 250 250 LOW 0 90 90 0 0 [].

(** What a call chain added to the trace: the events of [d'] after those
    already present in [d]. *)
Definition emitted (d d' : Device) : list Event :=
  drop (length (trace d)) (trace d').

(** ** Arduino helpers *)

(** The [constrain(amt, low, high)] macro of Arduino.h. *)
Definition constrain (amt low high : Z) : Z :=
  if amt <? low then low else if amt >? high then high else amt.

Definition sendInitMessage (name : string) (value : Z) (d : Device) : Device :=
  emit (InitMessage name value) d.

Definition sendUpdateMessage (name : string) (value : Z) (d : Device) : Device :=
  emit (UpdateMessage name value) d.

(** ** Blink *)

Definition updateBlinkIntervalInit (newBlinkIntervalInit : Z) (d : Device) : Device :=
  sendInitMessage BLINK newBlinkIntervalInit
    (set_blinkIntervalInit newBlinkIntervalInit d).

Definition setBlinkInterval (newBlinkInterval : Z) (d : Device) : Device :=
  if newBlinkInterval <=? 0 then
    set_blinkInterval (blinkIntervalInit d) d
  else
    let d1 := set_blinkInterval (constrain newBlinkInterval 10 10000) d in
    sendUpdateMessage BLINK (blinkInterval d1) d1.

Definition switchLedState (d : Device) : Device :=
  if ledState d =? LOW then set_ledState HIGH d else set_ledState LOW d.

(** [unsigned long] arithmetic: values modulo 2^32. *)
Definition ulong (z : Z) : Z := z mod 2 ^ 32.

(** Conversion of an [unsigned long] to [long]. *)
Definition to_long (z : Z) : Z :=
  let u := ulong z in if u <? 2 ^ 31 then u else u - 2 ^ 32.

(** [currentMillis] is what [millis()] returned.  The subtraction and the
    comparison are done in [unsigned long]: both [previousLedStateChange]
    (a [long]) and [blinkInterval] (an [int]) are converted to it. *)
Definition checkForBlink (currentMillis : Z) (d : Device) : Device :=
  if ulong (currentMillis - previousLedStateChange d) >? ulong (blinkInterval d) then
    let d1 := set_previousLedStateChange (to_long currentMillis) d in
    let d2 := switchLedState d1 in
    emit (DigitalWrite led (ledState d2)) d2
  else d.

(** ** Servos *)

Definition updateServo01Init (newInitValue : Z) (d : Device) : Device :=
  sendInitMessage SERVO_01 newInitValue (set_servo01Init newInitValue d).

Definition updateServo02Init (newInitValue : Z) (d : Device) : Device :=
  sendInitMessage SERVO_02 newInitValue (set_servo02Init newInitValue d).

Definition setServo01 (servoValue : Z) (d : Device) : Device :=
  sendUpdateMessage SERVO_01 servoValue
    (emit (ServoWrite Servo01 (constrain servoValue 0 180)) d).

Definition setServo02 (servoValue : Z) (d : Device) : Device :=
  sendUpdateMessage SERVO_02 servoValue
    (emit (ServoWrite Servo02 (constrain servoValue 0 180)) d).

(** The two [attach] calls bind the servos to pins 9 and 10; only the
    positions written are recorded. *)
Definition setupServos (d : Device) : Device :=
  emit (ServoWrite Servo02 (servo02Init d))
    (emit (ServoWrite Servo01 (servo01Init d)) d).

(** ** Motors *)

Definition updateMotor01Init (newInitValue : Z) (d : Device) : Device :=
  sendInitMessage MOTOR_01 newInitValue (set_motor01Init newInitValue d).

Definition updateMotor02Init (newInitValue : Z) (d : Device) : Device :=
  sendInitMessage MOTOR_02 newInitValue (set_motor02Init newInitValue d).

Definition setMotorSpeed (motor : MotorId) (speed : Z) (d : Device) : Device :=
  let speed := constrain speed (-255) 255 in
  if speed =? 0 then
    emit (MotorRun motor RELEASE) d
  else if speed >? 0 then
    emit (MotorRun motor FORWARD) (emit (MotorSetSpeed motor speed) d)
  else
    emit (MotorRun motor BACKWARD) (emit (MotorSetSpeed motor (Z.abs speed)) d).

Definition setMotor01 (motorValue : Z) (d : Device) : Device :=
  sendUpdateMessage MOTOR_01 motorValue (setMotorSpeed Motor01 motorValue d).

Definition setMotor02 (motorValue : Z) (d : Device) : Device :=
  sendUpdateMessage MOTOR_02 motorValue (setMotorSpeed Motor02 motorValue d).

(** ** Reinitialize commands *)

Definition initializeCommands (d : Device) : Device :=
  let d := set_blinkInterval (blinkIntervalInit d) d in
  let d := setServo01 (servo01Init d) d in
  let d := setServo02 (servo02Init d) d in
  let d := setMotor01 (motor01Init d) d in
  setMotor02 (motor02Init d) d.

(** ** Handler registration *)

Definition handler : Type := Z -> Device -> Device.

Definition handlerTable : Type := list (string * handler).

Record Registry := mkRegistry {
  initHandlers : handlerTable;
  commandHandlers : handlerTable
}.

Definition emptyRegistry : Registry := mkRegistry [] [].

Definition registeredIn (name : string) (table : handlerTable) : bool :=
  existsb (String.eqb name) (map fst table).

(** Modelled from the spec: [registerInitHandler], [registerCommandHandler]
    and the lookup by name are defined in command_handlers.h, which is not
    among the sources.  The registry is a name-keyed table kept in
    registration order; a second registration of a name is rejected and
    leaves the table as it was. *)
Definition addHandler (name : string) (h : handler) (table : handlerTable)
  : handlerTable :=
  if registeredIn name table then table else table ++ [(name, h)].

Definition registerInitHandler (name : string) (h : handler) (r : Registry)
  : Registry :=
  mkRegistry (addHandler name h (initHandlers r)) (commandHandlers r).

Definition registerCommandHandler (name : string) (h : handler) (r : Registry)
  : Registry :=
  mkRegistry (initHandlers r) (addHandler name h (commandHandlers r)).

Definition lookupHandler (name : string) (table : handlerTable) : option handler :=
  snd <$> find (fun p => String.eqb name (fst p)) table.

Definition registerInitHandlers (r : Registry) : Registry :=
  let r := registerInitHandler BLINK updateBlinkIntervalInit r in
  let r := registerInitHandler SERVO_01 updateServo01Init r in
  let r := registerInitHandler SERVO_02 updateServo02Init r in
  let r := registerInitHandler MOTOR_01 updateMotor01Init r in
  registerInitHandler MOTOR_02 updateMotor02Init r.

Definition registerCommandHandlers (r : Registry) : Registry :=
  let r := registerCommandHandler BLINK setBlinkInterval r in
  let r := registerCommandHandler SERVO_01 setServo01 r in
  let r := registerCommandHandler SERVO_02 setServo02 r in
  let r := registerCommandHandler MOTOR_01 setMotor01 r in
  registerCommandHandler MOTOR_02 setMotor02 r.

(** The registry as [setup] leaves it. *)
Definition registry : Registry :=
  registerCommandHandlers (registerInitHandlers emptyRegistry).

(** The init value of a command: the global its init handler stores into. *)
Definition initValue (name : string) (d : Device) : option Z :=
  if String.eqb name BLINK then Some (blinkIntervalInit d)
  else if String.eqb name SERVO_01 then Some (servo01Init d)
  else if String.eqb name SERVO_02 then Some (servo02Init d)
  else if String.eqb name MOTOR_01 then Some (motor01Init d)
  else if String.eqb name MOTOR_02 then Some (motor02Init d)
  else None.

(** Modelled from the spec: the registry operation [reinitializeAll], which
    the sketch does not have as a function of its own (its place is taken
    by [initializeCommands]).  It invokes every registered update handler
    with its corresponding init value, in registration order. *)
Definition reinitializeAll (table : handlerTable) (d : Device) : Device :=
  fold_left
    (fun d p => match initValue (fst p) d with
                | Some v => snd p v d
                | None => d
                end)
    table d.

(** The value of the latest update message for [name] in a trace, if any:
    what the host last heard about that command. *)
Definition noteUpdate (name : string) (acc : option Z) (e : Event) : option Z :=
  match e with
  | UpdateMessage n v => if String.eqb n name then Some v else acc
  | _ => acc
  end.

Definition lastUpdateMessage (name : string) (t : list Event) : option Z :=
  fold_left (noteUpdate name) t None.

(** The current value of a command.  The blink interval is a global of the
    sketch.  A servo or motor command has no variable: its value is the
    argument its handler was last called with, which the handler reports
    to the host in its update message. *)
Definition currentValue (name : string) (d : Device) : option Z :=
  if String.eqb name BLINK then Some (blinkInterval d)
  else lastUpdateMessage name (trace d).

Definition sameServo (a b : ServoId) : bool :=
  match a, b with
  | Servo01, Servo01 | Servo02, Servo02 => true
  | _, _ => false
  end.

Definition noteWrite (s : ServoId) (acc : option Z) (e : Event) : option Z :=
  match e with
  | ServoWrite s' pos => if sameServo s s' then Some pos else acc
  | _ => acc
  end.

(** The position a servo was last told to take. *)
Definition servoPosition (s : ServoId) (t : list Event) : option Z :=
  fold_left (noteWrite s) t None.

Definition sameMotor (a b : MotorId) : bool :=
  match a, b with
  | Motor01, Motor01 | Motor02, Motor02 => true
  | _, _ => false
  end.

(** The state of an [Adafruit_DCMotor] object: its PWM speed register and
    its run mode. *)
Record MotorState := mkMotorState { pwm : Z; mode : MotorMode }.

Definition motorApply (m : MotorId) (st : MotorState) (e : Event) : MotorState :=
  match e with
  | MotorSetSpeed m' s => if sameMotor m m' then mkMotorState s (mode st) else st
  | MotorRun m' md => if sameMotor m m' then mkMotorState (pwm st) md else st
  | _ => st
  end.

Definition motorState (m : MotorId) (t : list Event) : MotorState :=
  fold_left (motorApply m) t (mkMotorState 0 RELEASE).

(** The speed a motor turns at: nothing once released, the PWM register
    otherwise. *)
Definition appliedSpeed (st : MotorState) : Z :=
  match mode st with
  | RELEASE => 0
  | _ => pwm st
  end.

(** ** Watchdog *)

Inductive WatchdogState := ARMED | EXPIRED.

Record Watchdog := mkWatchdog {
  lastUpdateTimestamp : Z;
  timeoutThreshold : Z;
  watchdogState : WatchdogState;
  expirationCallback : Device -> Device
}.

(** Modelled from the spec: [setupUpdateHandler], the reset on a dispatched
    update and [checkForUpdateExpiration] are defined in update_handler.h,
    which is not among the sources.  The watchdog is a two-state machine:
    ARMED goes to EXPIRED when [now - lastUpdateTimestamp > timeoutThreshold],
    the callback runs on that transition, and only a dispatched update
    arms it again.  Times are the durations of the spec, not reduced
    modulo the width of a counter. *)
Definition setupUpdateHandler (timeout : Z) (callback : Device -> Device)
  : Watchdog :=
  mkWatchdog 0 timeout ARMED callback.

Definition resetWatchdog (now : Z) (w : Watchdog) : Watchdog :=
  mkWatchdog now (timeoutThreshold w) ARMED (expirationCallback w).

Definition timedOut (now : Z) (w : Watchdog) : bool :=
  now - lastUpdateTimestamp w >? timeoutThreshold w.

(** The third component tells whether the callback ran. *)
Definition checkForUpdateExpiration (now : Z) (s : Device * Watchdog)
  : Device * Watchdog * bool :=
  let (d, w) := s in
  match watchdogState w with
  | ARMED =>
      if timedOut now w then
        (expirationCallback w d,
         mkWatchdog (lastUpdateTimestamp w) (timeoutThreshold w) EXPIRED
           (expirationCallback w),
         true)
      else (d, w, false)
  | EXPIRED => (d, w, false)
  end.

(** ** Dispatch and the main loop *)

(** Modelled from the spec: the dispatch of a decoded frame, defined in
    serial_handler.h and command_handlers.h (not among the sources).  A
    name without an update handler is ignored; otherwise the handler runs
    and the watchdog is reset. *)
Definition dispatch (name : string) (value : Z) (now : Z)
  (s : Device * Watchdog) : Device * Watchdog :=
  match lookupHandler name (commandHandlers registry) with
  | None => s
  | Some h => (h value (fst s), resetWatchdog now (snd s))
  end.

(** What one pass of [loop] sees: the clock, and the frames the serial
    handler decodes from the bytes that arrived. *)
Record Iteration := mkIteration {
  millis : Z;
  received : list (string * Z)
}.

Definition processSerialData (it : Iteration) (s : Device * Watchdog)
  : Device * Watchdog :=
  fold_left (fun s f => dispatch (fst f) (snd f) (millis it) s) (received it) s.

(** [setup] as far as the commands are concerned: the servos are moved to
    their init positions and [initializeCommands] becomes the expiration
    callback.  The registrations are in [registry]; pin modes, the motor
    shield, the serial port and the free-SRAM banner are left out.  The
    timeout is a constant of update_handler.h and is taken as a
    parameter. *)
Definition setup (timeout : Z) : Device * Watchdog :=
  (setupServos bootDevice, setupUpdateHandler timeout initializeCommands).

Definition loop (it : Iteration) (s : Device * Watchdog)
  : Device * Watchdog * bool :=
  let s1 := processSerialData it s in
  let '(d2, w2, fired) := checkForUpdateExpiration (millis it) s1 in
  (checkForBlink (millis it) d2, w2, fired).

(** Runs [loop] once per iteration and records, for each, whether the
    watchdog fired in it. *)
Fixpoint run (its : list Iteration) (s : Device * Watchdog)
  : Device * Watchdog * list bool :=
  match its with
  | [] => (s, [])
  | it :: rest =>
      let '(s1, fired) := loop it s in
      let '(s2, fs) := run rest s1 in
      (s2, fired :: fs)
  end.

(** An iteration in which no frame is dispatched to a handler. *)
Definition silent (it : Iteration) : bool :=
  forallb (fun f => negb (registeredIn (fst f) (commandHandlers registry)))
    (received it).

Definition fireCount (fs : list bool) : nat :=
  fold_right (fun (b : bool) n => if b then S n else n) 0%nat fs.

Definition isUpdateMessage (e : Event) : bool :=
  match e with
  | UpdateMessage _ _ => true
  | _ => false
  end.

Definition isActuatorCall (e : Event) : bool :=
  match e with
  | ServoWrite _ _ | MotorSetSpeed _ _ | MotorRun _ _ | DigitalWrite _ _ => true
  | _ => false
  end.

(** ** Call sequences

    The calls a handler makes, as a function of its argument; used to state
    what the handlers add to the trace. *)

Definition appendCalls (l : list Event) (d : Device) : Device :=
  mkDevice (blinkIntervalInit d) (blinkInterval d) (ledState d)
    (previousLedStateChange d)
    (servo01Init d) (servo02Init d) (motor01Init d) (motor02Init d)
    (trace d ++ l).

Definition motorCalls (m : MotorId) (v : Z) : list Event :=
  if v =? 0 then [MotorRun m RELEASE]
  else if 0 <? v then [MotorSetSpeed m (Z.min v 255); MotorRun m FORWARD]
  else [MotorSetSpeed m (Z.min (- v) 255); MotorRun m BACKWARD].

Definition servoCalls (s : ServoId) (name : string) (v : Z) : list Event :=
  [ServoWrite s (Z.max 0 (Z.min v 180)); UpdateMessage name v].

Definition reinitializeCalls (d : Device) : list Event :=
  servoCalls Servo01 SERVO_01 (servo01Init d)
  ++ servoCalls Servo02 SERVO_02 (servo02Init d)
  ++ (motorCalls Motor01 (motor01Init d) ++ [UpdateMessage MOTOR_01 (motor01Init d)])
  ++ (motorCalls Motor02 (motor02Init d) ++ [UpdateMessage MOTOR_02 (motor02Init d)]).

(** A handler call that sends an update message for its command. *)
Definition acknowledges (name : string) (h : handler) (v : Z) (d : Device) : Prop :=
  exists x, In (UpdateMessage name x) (emitted d (h v d)).

(** [d'] is [d] after calls that changed no init value and sent no update
    message. *)
Definition quietlyExtends (d d' : Device) : Prop :=
  blinkIntervalInit d' = blinkIntervalInit d
  /\ servo01Init d' = servo01Init d
  /\ servo02Init d' = servo02Init d
  /\ motor01Init d' = motor01Init d
  /\ motor02Init d' = motor02Init d
  /\ exists l, trace d' = trace d ++ l /\ List.filter isUpdateMessage l = [].

(** The update messages of one reinitialization. *)
Definition reinitializeMessages (d : Device) : list Event :=
  [UpdateMessage SERVO_01 (servo01Init d); UpdateMessage SERVO_02 (servo02Init d);
   UpdateMessage MOTOR_01 (motor01Init d); UpdateMessage MOTOR_02 (motor02Init d)].

End Sketch.

(** * Host side *)

Module Host.

Inductive Failure := UnknownCommand | DuplicateCommand.

(** Modelled from the spec: [ArduinoSerialConnection] is an interface and
    its implementation, like [ArduinoSerialConfig], is not among the
    sources.  The host keeps a table from command name to current value.
    [registerCommand] seeds it and rejects a name registered before;
    [updateCommand] overwrites the value of a registered name and fails
    with the unknown-command condition for any other; a transmission
    cycle sends the current value of every registered command. *)
Definition registerCommand (name : string) (initialValue : Z)
  (table : gmap string Z) : Failure + gmap string Z :=
  match table !! name with
  | Some _ => inl DuplicateCommand
  | None => inr (<[name := initialValue]> table)
  end.

Definition updateCommand (commandName : string) (value : Z)
  (table : gmap string Z) : Failure + gmap string Z :=
  match table !! commandName with
  | Some _ => inr (<[commandName := value]> table)
  | None => inl UnknownCommand
  end.

Definition transmissionCycle (table : gmap string Z) : list (string * Z) :=
  map_to_list table.

(** Registers the commands of a configuration in order, stopping at the
    first failure. *)
Fixpoint registerAll (config : list (string * Z)) (table : gmap string Z)
  : Failure + gmap string Z :=
  match config with
  | [] => inr table
  | (name, v) :: rest =>
      match registerCommand name v table with
      | inl e => inl e
      | inr table' => registerAll rest table'
      end
  end.

End Host.

(** * Sequences of calls

    Whatever reaches the sketch, it reacts by calling its own functions one
    after the other: an init handler or an update handler for a frame that
    arrived, [initializeCommands] when the watchdog expires,
    [checkForBlink] at the end of every pass of [loop].  A [Call] names one
    such call with its argument; [performAll] runs a sequence of them. *)

Module SketchCalls.

Import Sketch.

Inductive Call :=
| CallUpdateBlinkIntervalInit (v : Z)
| CallSetBlinkInterval (v : Z)
| CallUpdateServo01Init (v : Z)
| CallUpdateServo02Init (v : Z)
| CallSetServo01 (v : Z)
| CallSetServo02 (v : Z)
| CallUpdateMotor01Init (v : Z)
| CallUpdateMotor02Init (v : Z)
| CallSetMotor01 (v : Z)
| CallSetMotor02 (v : Z)
| CallInitializeCommands
| CallCheckForBlink (currentMillis : Z).

Definition perform (c : Call) (d : Device) : Device :=
  match c with
  | CallUpdateBlinkIntervalInit v => updateBlinkIntervalInit v d
  | CallSetBlinkInterval v => setBlinkInterval v d
  | CallUpdateServo01Init v => updateServo01Init v d
  | CallUpdateServo02Init v => updateServo02Init v d
  | CallSetServo01 v => setServo01 v d
  | CallSetServo02 v => setServo02 v d
  | CallUpdateMotor01Init v => updateMotor01Init v d
  | CallUpdateMotor02Init v => updateMotor02Init v d
  | CallSetMotor01 v => setMotor01 v d
  | CallSetMotor02 v => setMotor02 v d
  | CallInitializeCommands => initializeCommands d
  | CallCheckForBlink currentMillis => checkForBlink currentMillis d
  end.

Definition performAll (cs : list Call) (d : Device) : Device :=
  fold_left (fun d c => perform c d) cs d.

(** The calls of init handlers. *)
Definition isInitCall (c : Call) : bool :=
  match c with
  | CallUpdateBlinkIntervalInit _
  | CallUpdateServo01Init _ | CallUpdateServo02Init _
  | CallUpdateMotor01Init _ | CallUpdateMotor02Init _ => true
  | _ => false
  end.

(** A call that stores a blink init value outside [10, 10000]. *)
Definition storesOddBlinkInit (c : Call) : bool :=
  match c with
  | CallUpdateBlinkIntervalInit v => negb ((10 <=? v) && (v <=? 10000))
  | _ => false
  end.

(** The level [switchLedState] moves to from [level]. *)
Definition toggled (level : Z) : Z := if level =? LOW then HIGH else LOW.

(** The levels written to the LED pin, oldest first. *)
Definition blinkLevels (t : list Event) : list Z :=
  flat_map (fun e => match e with
                     | DigitalWrite _ level => [level]
                     | _ => []
                     end) t.

(** [n] levels that alternate, starting with [level]. *)
Fixpoint alternating (level : Z) (n : nat) : list Z :=
  match n with
  | O => []
  | S n => level :: alternating (toggled level) n
  end.

(** The signed speed a motor state stands for: positive forward, negative
    backward, nothing when released. *)
Definition signedSpeed (st : MotorState) : Z :=
  match mode st with
  | FORWARD => pwm st
  | BACKWARD => - pwm st
  | RELEASE => 0
  end.

(** An outgoing call whose argument lies in the range of its actuator:
    a servo position in [0, 180], a motor speed in [1, 255], a level LOW or
    HIGH on the LED pin.  Messages to the host carry no such bound. *)
Definition withinActuatorRange (e : Event) : bool :=
  match e with
  | ServoWrite _ pos => (0 <=? pos) && (pos <=? 180)
  | MotorSetSpeed _ speed => (1 <=? speed) && (speed <=? 255)
  | DigitalWrite pin level => (pin =? led) && ((level =? LOW) || (level =? HIGH))
  | MotorRun _ _ | InitMessage _ _ | UpdateMessage _ _ => true
  end.

(** The calls one pass of [loop] makes for the frames it dispatches. *)
Definition callOfFrame (f : string * Z) : list Call :=
  let (name, v) := f in
  if String.eqb name BLINK then [CallSetBlinkInterval v]
  else if String.eqb name SERVO_01 then [CallSetServo01 v]
  else if String.eqb name SERVO_02 then [CallSetServo02 v]
  else if String.eqb name MOTOR_01 then [CallSetMotor01 v]
  else if String.eqb name MOTOR_02 then [CallSetMotor02 v]
  else [].

(** The outgoing calls one call of the sketch makes in state [d]. *)
Definition callsMade (c : Call) (d : Device) : list Event :=
  match c with
  | CallUpdateBlinkIntervalInit v => [InitMessage BLINK v]
  | CallSetBlinkInterval v =>
      if v <=? 0 then [] else [UpdateMessage BLINK (Z.max 10 (Z.min v 10000))]
  | CallUpdateServo01Init v => [InitMessage SERVO_01 v]
  | CallUpdateServo02Init v => [InitMessage SERVO_02 v]
  | CallSetServo01 v => servoCalls Servo01 SERVO_01 v
  | CallSetServo02 v => servoCalls Servo02 SERVO_02 v
  | CallUpdateMotor01Init v => [InitMessage MOTOR_01 v]
  | CallUpdateMotor02Init v => [InitMessage MOTOR_02 v]
  | CallSetMotor01 v => motorCalls Motor01 v ++ [UpdateMessage MOTOR_01 v]
  | CallSetMotor02 v => motorCalls Motor02 v ++ [UpdateMessage MOTOR_02 v]
  | CallInitializeCommands => reinitializeCalls d
  | CallCheckForBlink now =>
      if ulong (now - previousLedStateChange d) >? ulong (blinkInterval d)
      then [DigitalWrite led (toggled (ledState d))] else []
  end.

(** The host's picture of a servo agrees with the servo: if the host was
    told a value for [name], the servo stands at that value clamped into
    [0, 180]. *)
Definition servoMirrors (s : ServoId) (name : string) (t : list Event) : Prop :=
  match lastUpdateMessage name t with
  | Some x => servoPosition s t = Some (Z.max 0 (Z.min x 180))
  | None => True
  end.

(** The same for a motor, with the value clamped into [-255, 255]. *)
Definition motorMirrors (m : MotorId) (name : string) (t : list Event) : Prop :=
  match lastUpdateMessage name t with
  | Some x => signedSpeed (motorState m t) = Z.max (-255) (Z.min x 255)
  | None => True
  end.

Definition hostMirrorsActuators (t : list Event) : Prop :=
  servoMirrors Servo01 SERVO_01 t
  /\ servoMirrors Servo02 SERVO_02 t
  /\ motorMirrors Motor01 MOTOR_01 t
  /\ motorMirrors Motor02 MOTOR_02 t.

End SketchCalls.

(** * Properties of the sketch *)

Import Sketch.

(** Evaluates the comparisons between the command names of the sketch. *)
Ltac decide_names :=
  repeat match goal with
         | |- context [String.eqb ?a ?b] =>
             let r := eval vm_compute in (String.eqb a b) in
             change (String.eqb a b) with r
         end;
  cbv iota.

(** ** The trace only grows *)

Section TraceLemmas.

Lemma trace_emit e d : trace (emit e d) = trace d ++ [e].
Proof. reflexivity. Qed.

Lemma emitted_app d d' l : trace d' = trace d ++ l -> emitted d d' = l.
Proof.
  intros H. unfold emitted. rewrite H. apply drop_app_length.
Qed.

Lemma emitted_refl d d' : trace d' = trace d -> emitted d d' = [].
Proof.
  intros H. apply emitted_app. rewrite H. symmetry. apply app_nil_r.
Qed.

Lemma constrain_spec amt low high :
  low <= high -> constrain amt low high = Z.max low (Z.min amt high).
Proof. unfold constrain. intros H. repeat case_match; lia. Qed.

Lemma trace_setMotorSpeed m v d :
  trace (setMotorSpeed m v d) = trace d ++ motorCalls m v.
Proof.
  unfold setMotorSpeed, motorCalls.
  rewrite (constrain_spec v (-255) 255) by lia.
  destruct (Z.eqb_spec v 0) as [->|Hv]; [reflexivity|].
  destruct (Z.ltb_spec 0 v) as [Hpos|Hneg].
  - destruct (Z.eqb_spec (Z.max (-255) (Z.min v 255)) 0); [lia|].
    destruct (Z.gtb_spec (Z.max (-255) (Z.min v 255)) 0); [|lia].
    rewrite !trace_emit, <- app_assoc. simpl.
    replace (Z.max (-255) (Z.min v 255)) with (Z.min v 255) by lia.
    reflexivity.
  - destruct (Z.eqb_spec (Z.max (-255) (Z.min v 255)) 0); [lia|].
    destruct (Z.gtb_spec (Z.max (-255) (Z.min v 255)) 0); [lia|].
    rewrite !trace_emit, <- app_assoc. simpl.
    replace (Z.abs (Z.max (-255) (Z.min v 255))) with (Z.min (- v) 255) by lia.
    reflexivity.
Qed.

Lemma trace_setServo01 v d :
  trace (setServo01 v d) =
  trace d ++ [ServoWrite Servo01 (constrain v 0 180); UpdateMessage SERVO_01 v].
Proof. unfold setServo01, sendUpdateMessage. rewrite !trace_emit, <- app_assoc. reflexivity. Qed.

Lemma trace_setServo02 v d :
  trace (setServo02 v d) =
  trace d ++ [ServoWrite Servo02 (constrain v 0 180); UpdateMessage SERVO_02 v].
Proof. unfold setServo02, sendUpdateMessage. rewrite !trace_emit, <- app_assoc. reflexivity. Qed.

Lemma motorState_app m t l :
  motorState m (t ++ l) = fold_left (motorApply m) l (motorState m t).
Proof. unfold motorState. apply fold_left_app. Qed.

Lemma lastUpdateMessage_app name t l :
  lastUpdateMessage name (t ++ l) =
  fold_left (noteUpdate name) l (lastUpdateMessage name t).
Proof. unfold lastUpdateMessage. apply fold_left_app. Qed.

Lemma servoPosition_app s t l :
  servoPosition s (t ++ l) = fold_left (noteWrite s) l (servoPosition s t).
Proof. unfold servoPosition. apply fold_left_app. Qed.

Lemma sameMotor_refl m : sameMotor m m = true.
Proof. destruct m; reflexivity. Qed.

End TraceLemmas.

(** ** Update handlers *)

(** C4. [setBlinkInterval v] with [v <= 0] sets the blink interval to
    the init value instead of clamping [v]; with [v > 0] it sets it to
    [v] clamped into [10, 10000].  The init value itself is not touched. *)
Theorem setBlinkInterval_resets_or_clamps (v : Z) (d : Device) :
  blinkInterval (setBlinkInterval v d) =
    (if v <=? 0 then blinkIntervalInit d else Z.max 10 (Z.min v 10000))
  /\ blinkIntervalInit (setBlinkInterval v d) = blinkIntervalInit d.
Proof.
  unfold setBlinkInterval.
  destruct (Z.leb_spec v 0); simpl.
  - split; reflexivity.
  - split; [|reflexivity]. apply constrain_spec. lia.
Qed.

(** C5. The motor handler clamps the magnitude: whatever [v], the motor
    ends up turning at speed [min(|v|, 255)].  An input of 300 sets the
    speed 255 and runs forward; both servo handlers turn an input of -10
    into a write of the servo minimum 0. *)
Theorem handlers_clamp_out_of_range (m : MotorId) (v : Z) (d : Device) :
  appliedSpeed (motorState m (trace (setMotorSpeed m v d))) = Z.min (Z.abs v) 255
  /\ emitted d (setMotorSpeed m 300 d) = [MotorSetSpeed m 255; MotorRun m FORWARD]
  /\ emitted d (setServo01 (-10) d) =
       [ServoWrite Servo01 0; UpdateMessage SERVO_01 (-10)]
  /\ emitted d (setServo02 (-10) d) =
       [ServoWrite Servo02 0; UpdateMessage SERVO_02 (-10)].
Proof.
  split; [|split; [|split]].
  - rewrite trace_setMotorSpeed, motorState_app. unfold motorCalls.
    destruct (Z.eqb_spec v 0) as [->|Hv]; simpl.
    + rewrite sameMotor_refl. reflexivity.
    + destruct (Z.ltb_spec 0 v); simpl; rewrite !sameMotor_refl; simpl;
        unfold appliedSpeed; simpl; lia.
  - apply emitted_app. rewrite trace_setMotorSpeed. reflexivity.
  - apply emitted_app. rewrite trace_setServo01. reflexivity.
  - apply emitted_app. rewrite trace_setServo02. reflexivity.
Qed.

(** C8. For [v] outside [0, 180] a servo handler writes the clamped
    position to the servo and reports the unclamped [v] in its update
    message, so what the host hears differs from the position applied. *)
Theorem servo_reports_unclamped_value (v : Z) (d : Device) :
  v < 0 \/ 180 < v ->
  let applied := if v <? 0 then 0 else 180 in
  emitted d (setServo01 v d) = [ServoWrite Servo01 applied; UpdateMessage SERVO_01 v]
  /\ emitted d (setServo02 v d) = [ServoWrite Servo02 applied; UpdateMessage SERVO_02 v]
  /\ servoPosition Servo01 (trace (setServo01 v d)) = Some applied
  /\ servoPosition Servo02 (trace (setServo02 v d)) = Some applied
  /\ lastUpdateMessage SERVO_01 (trace (setServo01 v d)) = Some v
  /\ lastUpdateMessage SERVO_02 (trace (setServo02 v d)) = Some v
  /\ applied <> v.
Proof.
  intros Hout applied.
  assert (Hc : constrain v 0 180 = applied).
  { unfold constrain, applied.
    destruct (Z.ltb_spec v 0); [reflexivity|].
    destruct (Z.gtb_spec v 180); [reflexivity|lia]. }
  repeat split.
  - apply emitted_app. rewrite trace_setServo01, Hc. reflexivity.
  - apply emitted_app. rewrite trace_setServo02, Hc. reflexivity.
  - rewrite trace_setServo01, servoPosition_app, Hc. reflexivity.
  - rewrite trace_setServo02, servoPosition_app, Hc. reflexivity.
  - rewrite trace_setServo01, lastUpdateMessage_app. reflexivity.
  - rewrite trace_setServo02, lastUpdateMessage_app. reflexivity.
  - unfold applied. destruct (Z.ltb_spec v 0); lia.
Qed.

Lemma servo_reports_unclamped_value_witness :
  (200 < 0 \/ 180 < 200)
  /\ emitted bootDevice (setServo01 200 bootDevice) =
       [ServoWrite Servo01 180; UpdateMessage SERVO_01 200]
  /\ servoPosition Servo01 (trace (setServo01 200 bootDevice)) = Some 180
  /\ lastUpdateMessage SERVO_01 (trace (setServo01 200 bootDevice)) = Some 200.
Proof.
  assert (Hout : 200 < 0 \/ 180 < 200) by (right; lia).
  destruct (servo_reports_unclamped_value 200 bootDevice Hout)
    as (H1 & _ & H3 & _ & H5 & _).
  split; [exact Hout|]. split; [exact H1|]. split; [exact H3|exact H5].
Defined.

(** C9. [setMotorSpeed] maps the sign of the clamped value to the run
    mode: 0 releases the motor and sets no speed, a positive value sets
    that speed and runs forward, a negative one sets its absolute value
    and runs backward.  No speed handed to the motor is negative. *)
Theorem setMotorSpeed_sign_to_mode (m : MotorId) (v : Z) (d : Device) :
  emitted d (setMotorSpeed m v d) =
    (if v =? 0 then [MotorRun m RELEASE]
     else if 0 <? v then [MotorSetSpeed m (Z.min v 255); MotorRun m FORWARD]
     else [MotorSetSpeed m (Z.min (- v) 255); MotorRun m BACKWARD])
  /\ Forall (fun e => match e with
                      | MotorSetSpeed _ s => 0 <= s <= 255
                      | _ => True
                      end) (emitted d (setMotorSpeed m v d)).
Proof.
  assert (He := emitted_app d (setMotorSpeed m v d) _ (trace_setMotorSpeed m v d)).
  unfold motorCalls in He.
  split; [exact He|].
  rewrite He.
  destruct (Z.eqb_spec v 0); [repeat constructor|].
  destruct (Z.ltb_spec 0 v); repeat constructor; lia.
Qed.

(** ** Handlers as trace extensions

    Every update handler of a servo or a motor leaves the globals alone
    and appends its calls to the trace. *)

Section HandlerEquations.

Lemma appendCalls_app l k d :
  appendCalls k (appendCalls l d) = appendCalls (l ++ k) d.
Proof. unfold appendCalls. simpl. rewrite app_assoc. reflexivity. Qed.

Lemma emit_appendCalls e d : emit e d = appendCalls [e] d.
Proof. reflexivity. Qed.

Lemma setMotorSpeed_eq m v d : setMotorSpeed m v d = appendCalls (motorCalls m v) d.
Proof.
  assert (Ht := trace_setMotorSpeed m v d).
  unfold setMotorSpeed in *.
  destruct (_ =? 0); [|destruct (_ >? 0)]; simpl in Ht;
    unfold appendCalls; rewrite <- Ht; reflexivity.
Qed.

Lemma setServo01_eq v d : setServo01 v d = appendCalls (servoCalls Servo01 SERVO_01 v) d.
Proof.
  unfold setServo01, sendUpdateMessage, servoCalls.
  rewrite !emit_appendCalls, appendCalls_app, constrain_spec by lia. reflexivity.
Qed.

Lemma setServo02_eq v d : setServo02 v d = appendCalls (servoCalls Servo02 SERVO_02 v) d.
Proof.
  unfold setServo02, sendUpdateMessage, servoCalls.
  rewrite !emit_appendCalls, appendCalls_app, constrain_spec by lia. reflexivity.
Qed.

Lemma setMotor01_eq v d :
  setMotor01 v d = appendCalls (motorCalls Motor01 v ++ [UpdateMessage MOTOR_01 v]) d.
Proof.
  unfold setMotor01, sendUpdateMessage.
  rewrite setMotorSpeed_eq, emit_appendCalls, appendCalls_app. reflexivity.
Qed.

Lemma setMotor02_eq v d :
  setMotor02 v d = appendCalls (motorCalls Motor02 v ++ [UpdateMessage MOTOR_02 v]) d.
Proof.
  unfold setMotor02, sendUpdateMessage.
  rewrite setMotorSpeed_eq, emit_appendCalls, appendCalls_app. reflexivity.
Qed.

Lemma initializeCommands_eq d :
  initializeCommands d =
  appendCalls (reinitializeCalls d) (set_blinkInterval (blinkIntervalInit d) d).
Proof.
  unfold initializeCommands, reinitializeCalls.
  rewrite setServo01_eq, setServo02_eq, setMotor01_eq, setMotor02_eq.
  rewrite !appendCalls_app. simpl. rewrite <- !app_assoc. reflexivity.
Qed.

Lemma emitted_appendCalls l d d0 :
  trace d0 = trace d -> emitted d (appendCalls l d0) = l.
Proof. intros H. apply emitted_app. simpl. rewrite H. reflexivity. Qed.

Lemma updates_of_motorCalls m v : List.filter isUpdateMessage (motorCalls m v) = [].
Proof. unfold motorCalls. repeat case_match; reflexivity. Qed.

Lemma noteUpdate_motorCalls name m v acc :
  fold_left (noteUpdate name) (motorCalls m v) acc = acc.
Proof. unfold motorCalls. repeat case_match; reflexivity. Qed.

Lemma noteWrite_motorCalls s m v acc :
  fold_left (noteWrite s) (motorCalls m v) acc = acc.
Proof. unfold motorCalls. repeat case_match; reflexivity. Qed.

Lemma commandHandlers_registry :
  commandHandlers registry =
  [(BLINK, setBlinkInterval); (SERVO_01, setServo01); (SERVO_02, setServo02);
   (MOTOR_01, setMotor01); (MOTOR_02, setMotor02)].
Proof. reflexivity. Qed.

Lemma initHandlers_registry :
  initHandlers registry =
  [(BLINK, updateBlinkIntervalInit); (SERVO_01, updateServo01Init);
   (SERVO_02, updateServo02Init); (MOTOR_01, updateMotor01Init);
   (MOTOR_02, updateMotor02Init)].
Proof. reflexivity. Qed.

End HandlerEquations.

(** ** Reinitialization *)

(** C1, as stated, fails.  On the device as [setup] leaves it, calling
    every registered update handler with its init value reports the blink
    interval to the host; [initializeCommands] makes no such call. *)
Lemma initializeCommands_skips_blink_handler :
  initializeCommands (setupServos bootDevice)
  <> reinitializeAll (commandHandlers registry) (setupServos bootDevice).
Proof.
  intros H. apply (f_equal trace) in H. vm_compute in H. discriminate H.
Qed.

(** C1, amended.  [initializeCommands] assigns the blink interval its init
    value directly, without a call of [setBlinkInterval] and without an
    update message, and then calls the update handlers of the remaining
    registered commands, once each, with their init values and in
    registration order: SRV1, SRV2, MTR1, MTR2. *)
Theorem initializeCommands_assigns_blink_then_calls_handlers (d : Device) :
  map fst (commandHandlers registry) = [BLINK; SERVO_01; SERVO_02; MOTOR_01; MOTOR_02]
  /\ initializeCommands d =
       reinitializeAll (tail (commandHandlers registry))
         (set_blinkInterval (blinkIntervalInit d) d)
  /\ emitted d (set_blinkInterval (blinkIntervalInit d) d) = []
  /\ List.filter isUpdateMessage (emitted d (initializeCommands d)) =
       [UpdateMessage SERVO_01 (servo01Init d); UpdateMessage SERVO_02 (servo02Init d);
        UpdateMessage MOTOR_01 (motor01Init d); UpdateMessage MOTOR_02 (motor02Init d)].
Proof.
  split; [reflexivity|]. split; [reflexivity|]. split.
  - apply emitted_refl. reflexivity.
  - rewrite initializeCommands_eq, emitted_appendCalls by reflexivity.
    unfold reinitializeCalls, servoCalls.
    rewrite !List.filter_app, !updates_of_motorCalls. reflexivity.
Qed.

(** ** Acknowledgements *)

(** C6, as stated, fails: the blink handler, called with 0, resets the
    blink interval to its init value and sends nothing. *)
Lemma blink_reset_is_not_acknowledged :
  In (BLINK, setBlinkInterval) (commandHandlers registry)
  /\ blinkInterval (setBlinkInterval 0 (set_blinkInterval 500 bootDevice)) = 250
  /\ ~ acknowledges BLINK setBlinkInterval 0 (set_blinkInterval 500 bootDevice).
Proof.
  split; [left; reflexivity|]. split; [reflexivity|].
  intros [x Hx]. vm_compute in Hx. exact Hx.
Qed.

(** C6, amended.  Every registered update handler sends exactly one update
    message for its command on every input, except the blink handler on
    an input [v <= 0], which sends none.  The blink handler reports the
    clamped interval, the servo and motor handlers the value received. *)
Theorem update_handlers_acknowledge (name : string) (h : handler) (v : Z) (d : Device) :
  In (name, h) (commandHandlers registry) ->
  List.filter isUpdateMessage (emitted d (h v d)) =
    if String.eqb name BLINK then
      if v <=? 0 then [] else [UpdateMessage BLINK (Z.max 10 (Z.min v 10000))]
    else [UpdateMessage name v].
Proof.
  rewrite commandHandlers_registry. simpl.
  intros [H|[H|[H|[H|[H|[]]]]]]; injection H as <- <-; simpl.
  - unfold setBlinkInterval. destruct (Z.leb_spec v 0).
    + rewrite emitted_refl by reflexivity. reflexivity.
    + unfold sendUpdateMessage. rewrite emit_appendCalls.
      rewrite emitted_appendCalls by reflexivity. simpl.
      rewrite constrain_spec by lia. reflexivity.
  - rewrite setServo01_eq, emitted_appendCalls by reflexivity. reflexivity.
  - rewrite setServo02_eq, emitted_appendCalls by reflexivity. reflexivity.
  - rewrite setMotor01_eq, emitted_appendCalls by reflexivity.
    rewrite List.filter_app, updates_of_motorCalls. reflexivity.
  - rewrite setMotor02_eq, emitted_appendCalls by reflexivity.
    rewrite List.filter_app, updates_of_motorCalls. reflexivity.
Qed.

Lemma update_handlers_acknowledge_witness :
  In (MOTOR_01, setMotor01) (commandHandlers registry)
  /\ List.filter isUpdateMessage (emitted bootDevice (setMotor01 300 bootDevice)) =
       [UpdateMessage MOTOR_01 300].
Proof.
  assert (Hin : In (MOTOR_01, setMotor01) (commandHandlers registry)).
  { right. right. right. left. reflexivity. }
  split; [exact Hin|].
  exact (update_handlers_acknowledge MOTOR_01 setMotor01 300 bootDevice Hin).
Defined.

(** ** Init handlers *)

Section InitHandlers.

Lemma initValue_after_reinitialize name d :
  initValue name (initializeCommands d) = initValue name d.
Proof. rewrite initializeCommands_eq. reflexivity. Qed.

Lemma lastUpdateMessage_reinitialize name d :
  lastUpdateMessage name (trace (initializeCommands d)) =
  fold_left (noteUpdate name)
    [UpdateMessage SERVO_01 (servo01Init d); UpdateMessage SERVO_02 (servo02Init d);
     UpdateMessage MOTOR_01 (motor01Init d); UpdateMessage MOTOR_02 (motor02Init d)]
    (lastUpdateMessage name (trace d)).
Proof.
  rewrite initializeCommands_eq. simpl trace.
  rewrite lastUpdateMessage_app. unfold reinitializeCalls, servoCalls.
  rewrite !fold_left_app. simpl.
  rewrite !noteUpdate_motorCalls. reflexivity.
Qed.

(** After a reinitialization the current value of every registered
    command is its init value. *)
Lemma currentValue_reinitialize name d :
  In name (map fst (commandHandlers registry)) ->
  currentValue name (initializeCommands d) = initValue name d.
Proof.
  rewrite commandHandlers_registry. simpl.
  intros [<-|[<-|[<-|[<-|[<-|[]]]]]]; unfold currentValue; decide_names.
  - rewrite initializeCommands_eq. reflexivity.
  - rewrite lastUpdateMessage_reinitialize. reflexivity.
  - rewrite lastUpdateMessage_reinitialize. reflexivity.
  - rewrite lastUpdateMessage_reinitialize. reflexivity.
  - rewrite lastUpdateMessage_reinitialize. reflexivity.
Qed.

End InitHandlers.

(** C10. An init handler stores its argument as the init value of its own
    command and sends one init message.  It changes no other global, in
    particular not the blink interval, makes no actuator call, and changes
    no command's current value, servo position or motor state.  The new
    init value reaches the command at the next reinitialization. *)
Theorem init_handlers_only_store (name : string) (h : handler) (v : Z) (d : Device) :
  In (name, h) (initHandlers registry) ->
  initValue name (h v d) = Some v
  /\ (forall other, other <> name -> initValue other (h v d) = initValue other d)
  /\ blinkInterval (h v d) = blinkInterval d
  /\ ledState (h v d) = ledState d
  /\ previousLedStateChange (h v d) = previousLedStateChange d
  /\ emitted d (h v d) = [InitMessage name v]
  /\ (forall n, currentValue n (h v d) = currentValue n d)
  /\ (forall s, servoPosition s (trace (h v d)) = servoPosition s (trace d))
  /\ (forall m, motorState m (trace (h v d)) = motorState m (trace d))
  /\ currentValue name (initializeCommands (h v d)) = Some v.
Proof.
  rewrite initHandlers_registry. simpl.
  intros [H|[H|[H|[H|[H|[]]]]]]; injection H as <- <-.
  all: repeat split; try reflexivity.
  all: try (intros other Hne; unfold initValue;
            repeat match goal with
                   | |- context [String.eqb other ?x] =>
                       destruct (String.eqb_spec other x) as [->|?]
                   end;
            first [congruence | reflexivity]).
  all: try (apply emitted_app; reflexivity).
  all: try (intros n; unfold currentValue; simpl; destruct (String.eqb n BLINK);
            [reflexivity|rewrite lastUpdateMessage_app; reflexivity]).
  all: try (intros s; simpl; rewrite servoPosition_app; reflexivity).
  all: try (intros m; simpl; rewrite motorState_app; reflexivity).
  all: rewrite currentValue_reinitialize; [reflexivity|].
  all: rewrite commandHandlers_registry; simpl; tauto.
Qed.

Lemma init_handlers_only_store_witness :
  In (SERVO_01, updateServo01Init) (initHandlers registry)
  /\ initValue SERVO_01 (updateServo01Init 45 bootDevice) = Some 45
  /\ emitted bootDevice (updateServo01Init 45 bootDevice) = [InitMessage SERVO_01 45]
  /\ currentValue SERVO_01 (initializeCommands (updateServo01Init 45 bootDevice)) = Some 45.
Proof.
  assert (Hin : In (SERVO_01, updateServo01Init) (initHandlers registry)).
  { right. left. reflexivity. }
  destruct (init_handlers_only_store SERVO_01 updateServo01Init 45 bootDevice Hin)
    as (H1 & _ & _ & _ & _ & H6 & _ & _ & _ & H10).
  split; [exact Hin|]. split; [exact H1|]. split; [exact H6|exact H10].
Defined.

(** ** Dispatch *)

Section Dispatch.

Lemma lookupHandler_unregistered name table :
  registeredIn name table = false -> lookupHandler name table = None.
Proof.
  unfold registeredIn, lookupHandler.
  induction table as [|[n h] table IH]; simpl; [reflexivity|].
  destruct (String.eqb name n); simpl; [discriminate|exact IH].
Qed.

Lemma lookupHandler_registered name table :
  registeredIn name table = true -> is_Some (lookupHandler name table).
Proof.
  unfold registeredIn, lookupHandler.
  induction table as [|[n h] table IH]; simpl; [discriminate|].
  destruct (String.eqb name n); simpl; [eauto|exact IH].
Qed.

Lemma dispatch_unregistered name v now s :
  registeredIn name (commandHandlers registry) = false ->
  dispatch name v now s = s.
Proof.
  intros H. unfold dispatch. rewrite lookupHandler_unregistered by exact H.
  reflexivity.
Qed.

(** A dispatched update arms the watchdog and stamps it with the clock;
    a frame for an unregistered name leaves it as it was. *)
Lemma dispatch_watchdog name v now s :
  snd (dispatch name v now s) =
  if registeredIn name (commandHandlers registry)
  then resetWatchdog now (snd s) else snd s.
Proof.
  unfold dispatch.
  destruct (registeredIn name (commandHandlers registry)) eqn:E.
  - destruct (lookupHandler_registered _ _ E) as [h ->]. reflexivity.
  - rewrite lookupHandler_unregistered by exact E. reflexivity.
Qed.

Lemma initValue_update_handler name h n v d :
  In (name, h) (commandHandlers registry) ->
  initValue n (h v d) = initValue n d.
Proof.
  rewrite commandHandlers_registry. simpl.
  intros [H|[H|[H|[H|[H|[]]]]]]; injection H as <- <-.
  - unfold setBlinkInterval. destruct (v <=? 0); reflexivity.
  - rewrite setServo01_eq. reflexivity.
  - rewrite setServo02_eq. reflexivity.
  - rewrite setMotor01_eq. reflexivity.
  - rewrite setMotor02_eq. reflexivity.
Qed.

Lemma lookupHandler_In name h :
  lookupHandler name (commandHandlers registry) = Some h ->
  In (name, h) (commandHandlers registry).
Proof.
  unfold lookupHandler. generalize (commandHandlers registry) as table.
  induction table as [|[n g] table IH]; simpl; [discriminate|].
  destruct (String.eqb_spec name n) as [->|Hne]; simpl.
  - intros [= ->]. left. reflexivity.
  - intros H. right. apply IH, H.
Qed.

Lemma registeredIn_names name table :
  In name (map fst table) -> registeredIn name table = true.
Proof.
  intros H. unfold registeredIn. apply existsb_exists.
  exists name. split; [exact H|apply String.eqb_refl].
Qed.

End Dispatch.

(** C3. For every registered command, an update that carries the
    command's init value followed at once by a watchdog expiry leaves the
    command's current value equal to its init value. *)
Theorem reinitialize_after_init_update
  (name : string) (d : Device) (w : Watchdog) (now now' : Z) :
  In name (map fst (commandHandlers registry)) ->
  expirationCallback w = initializeCommands ->
  now' - now > timeoutThreshold w ->
  exists v,
    initValue name d = Some v
    /\ snd (checkForUpdateExpiration now' (dispatch name v now (d, w))) = true
    /\ currentValue name
         (fst (fst (checkForUpdateExpiration now' (dispatch name v now (d, w)))))
       = Some v
    /\ initValue name
         (fst (fst (checkForUpdateExpiration now' (dispatch name v now (d, w)))))
       = Some v.
Proof.
  intros Hin Hcb Hlate.
  assert (Hreg := registeredIn_names _ _ Hin).
  destruct (lookupHandler_registered _ _ Hreg) as [h Hh].
  assert (Hv : exists v, initValue name d = Some v).
  { revert Hin. rewrite commandHandlers_registry. simpl.
    intros [<-|[<-|[<-|[<-|[<-|[]]]]]]; eexists; reflexivity. }
  destruct Hv as [v Hv]. exists v. split; [exact Hv|].
  unfold dispatch. rewrite Hh. unfold checkForUpdateExpiration. simpl.
  unfold timedOut. simpl.
  destruct (Z.gtb_spec (now' - now) (timeoutThreshold w)) as [_|Hno]; [|lia].
  simpl. rewrite Hcb.
  split; [reflexivity|].
  rewrite currentValue_reinitialize by exact Hin.
  rewrite initValue_after_reinitialize.
  rewrite (initValue_update_handler name h) by (apply lookupHandler_In, Hh).
  split; exact Hv.
Qed.

Lemma reinitialize_after_init_update_witness :
  In BLINK (map fst (commandHandlers registry))
  /\ 1500 - 400 > 1000
  /\ exists v,
       initValue BLINK (updateBlinkIntervalInit 5 bootDevice) = Some v
       /\ currentValue BLINK
            (fst (fst (checkForUpdateExpiration 1500
               (dispatch BLINK v 400
                  (updateBlinkIntervalInit 5 bootDevice,
                   setupUpdateHandler 1000 initializeCommands)))))
          = Some v.
Proof.
  assert (Hin : In BLINK (map fst (commandHandlers registry))).
  { left. reflexivity. }
  assert (Hlate : 1500 - 400 > timeoutThreshold (setupUpdateHandler 1000 initializeCommands)).
  { simpl. lia. }
  split; [exact Hin|]. split; [lia|].
  destruct (reinitialize_after_init_update BLINK
              (updateBlinkIntervalInit 5 bootDevice)
              (setupUpdateHandler 1000 initializeCommands) 400 1500
              Hin eq_refl Hlate) as (v & Hv & _ & Hcur & _).
  exists v. split; [exact Hv|exact Hcur].
Defined.

(** What the actuators are told when the watchdog reinitializes: the init
    values after clamping, which differ from the init values themselves
    when those lie outside the actuator's range. *)
Lemma reinitialize_actuator_outputs (d : Device) :
  servoPosition Servo01 (trace (initializeCommands d)) = Some (Z.max 0 (Z.min (servo01Init d) 180))
  /\ servoPosition Servo02 (trace (initializeCommands d)) = Some (Z.max 0 (Z.min (servo02Init d) 180))
  /\ appliedSpeed (motorState Motor01 (trace (initializeCommands d))) = Z.min (Z.abs (motor01Init d)) 255
  /\ appliedSpeed (motorState Motor02 (trace (initializeCommands d))) = Z.min (Z.abs (motor02Init d)) 255.
Proof.
  rewrite initializeCommands_eq. simpl trace.
  unfold reinitializeCalls, servoCalls.
  rewrite !servoPosition_app, !motorState_app, !fold_left_app.
  rewrite !noteWrite_motorCalls. simpl.
  repeat split.
  - unfold motorCalls. destruct (Z.eqb_spec (motor02Init d) 0);
      [|destruct (Z.ltb_spec 0 (motor02Init d))];
      unfold motorCalls; destruct (Z.eqb_spec (motor01Init d) 0);
      try destruct (Z.ltb_spec 0 (motor01Init d)); simpl; unfold appliedSpeed; simpl; lia.
  - unfold motorCalls. destruct (Z.eqb_spec (motor02Init d) 0);
      [|destruct (Z.ltb_spec 0 (motor02Init d))];
      unfold motorCalls; destruct (Z.eqb_spec (motor01Init d) 0);
      try destruct (Z.ltb_spec 0 (motor01Init d)); simpl; unfold appliedSpeed; simpl; lia.
Qed.

(** ** The watchdog over a run of the loop *)

Section Silence.

Lemma processSerialData_silent it s :
  silent it = true -> processSerialData it s = s.
Proof.
  unfold silent, processSerialData.
  generalize (received it) as frames.
  induction frames as [|f frames IH]; simpl; [reflexivity|].
  intros H. apply andb_prop in H as [Hf Hrest].
  rewrite dispatch_unregistered; [apply IH, Hrest|].
  destruct (registeredIn _ _); [discriminate|reflexivity].
Qed.

Lemma run_app a b s :
  run (a ++ b) s =
  (fst (run b (fst (run a s))), snd (run a s) ++ snd (run b (fst (run a s)))).
Proof.
  revert s. induction a as [|it a IH]; intros s; simpl.
  - destruct (run b s). reflexivity.
  - destruct (loop it s) as [s1 f]. rewrite IH.
    destruct (run a s1) as [s2 fs]. reflexivity.
Qed.

(** A silent pass while the watchdog is armed and within its window:
    nothing fires, the watchdog is untouched. *)
Lemma loop_silent_armed it d w :
  silent it = true -> watchdogState w = ARMED -> timedOut (millis it) w = false ->
  loop it (d, w) = (checkForBlink (millis it) d, w, false).
Proof.
  intros Hs Ha Ht. unfold loop. rewrite processSerialData_silent by exact Hs.
  unfold checkForUpdateExpiration. rewrite Ha, Ht. reflexivity.
Qed.

(** The silent pass in which the window is exceeded: the callback runs
    and the watchdog expires, keeping its time stamp. *)
Lemma loop_silent_expiring it d w :
  silent it = true -> watchdogState w = ARMED -> timedOut (millis it) w = true ->
  loop it (d, w) =
    (checkForBlink (millis it) (expirationCallback w d),
     mkWatchdog (lastUpdateTimestamp w) (timeoutThreshold w) EXPIRED
       (expirationCallback w),
     true).
Proof.
  intros Hs Ha Ht. unfold loop. rewrite processSerialData_silent by exact Hs.
  unfold checkForUpdateExpiration. rewrite Ha, Ht. reflexivity.
Qed.

(** A silent pass after expiry: nothing fires again. *)
Lemma loop_silent_expired it d w :
  silent it = true -> watchdogState w = EXPIRED ->
  loop it (d, w) = (checkForBlink (millis it) d, w, false).
Proof.
  intros Hs He. unfold loop. rewrite processSerialData_silent by exact Hs.
  unfold checkForUpdateExpiration. rewrite He. reflexivity.
Qed.

Lemma run_silent_armed its : forall d w,
  forallb silent its = true -> watchdogState w = ARMED ->
  Forall (fun it => timedOut (millis it) w = false) its ->
  snd (fst (run its (d, w))) = w
  /\ snd (run its (d, w)) = replicate (length its) false.
Proof.
  induction its as [|it its IH]; intros d w Hs Ha Hq; simpl.
  - split; reflexivity.
  - simpl in Hs. apply andb_prop in Hs as [Hit Hrest].
    inversion Hq as [|? ? Hq1 Hq2]; subst.
    rewrite loop_silent_armed by assumption.
    destruct (IH (checkForBlink (millis it) d) w Hrest Ha Hq2) as [E1 E2].
    destruct (run its (checkForBlink (millis it) d, w)) as [s2 fs].
    simpl in *. subst. split; reflexivity.
Qed.

Lemma run_silent_expired its : forall d w,
  forallb silent its = true -> watchdogState w = EXPIRED ->
  snd (fst (run its (d, w))) = w
  /\ snd (run its (d, w)) = replicate (length its) false.
Proof.
  induction its as [|it its IH]; intros d w Hs He; simpl.
  - split; reflexivity.
  - simpl in Hs. apply andb_prop in Hs as [Hit Hrest].
    rewrite loop_silent_expired by assumption.
    destruct (IH (checkForBlink (millis it) d) w Hrest He) as [E1 E2].
    destruct (run its (checkForBlink (millis it) d, w)) as [s2 fs].
    simpl in *. subst. split; reflexivity.
Qed.

Lemma fireCount_app a b : fireCount (a ++ b) = (fireCount a + fireCount b)%nat.
Proof.
  induction a as [|[] a IH]; simpl; [reflexivity| |]; rewrite ?IH; reflexivity.
Qed.

Lemma fireCount_quiet n : fireCount (replicate n false) = 0%nat.
Proof. induction n; simpl; [reflexivity|assumption]. Qed.

(** The first pass of a run at which the window is exceeded. *)
Lemma first_timeout w its :
  Exists (fun it => timedOut (millis it) w = true) its ->
  exists pre it post,
    its = pre ++ it :: post
    /\ Forall (fun i => timedOut (millis i) w = false) pre
    /\ timedOut (millis it) w = true.
Proof.
  induction its as [|i its IH]; intros H; [inversion H|].
  destruct (timedOut (millis i) w) eqn:E.
  - exists [], i, its. repeat split; [constructor|exact E].
  - inversion H as [? ? Hi|? ? Hrest]; subst; [congruence|].
    destruct (IH Hrest) as (pre & it & post & -> & Hpre & Hit).
    exists (i :: pre), it, post. repeat split; [|exact Hit].
    constructor; assumption.
Qed.

(** The shape of a silent run that exceeds the window: quiet passes, the
    pass that fires, then quiet passes however long the silence lasts. *)
Lemma run_silent_fires_once pre it post d w :
  forallb silent (pre ++ it :: post) = true ->
  watchdogState w = ARMED ->
  Forall (fun i => timedOut (millis i) w = false) pre ->
  timedOut (millis it) w = true ->
  snd (run (pre ++ it :: post) (d, w)) =
    replicate (length pre) false ++ true :: replicate (length post) false
  /\ snd (fst (run (pre ++ it :: post) (d, w))) =
       mkWatchdog (lastUpdateTimestamp w) (timeoutThreshold w) EXPIRED
         (expirationCallback w).
Proof.
  intros Hs Ha Hpre Hit.
  rewrite forallb_app in Hs. apply andb_prop in Hs as [Hs1 Hs2].
  simpl in Hs2. apply andb_prop in Hs2 as [Hsit Hs3].
  rewrite run_app.
  destruct (run_silent_armed pre d w Hs1 Ha Hpre) as [E1 E2].
  destruct (run pre (d, w)) as [[d1 w1] fs1]. simpl in E1, E2. subst w1 fs1.
  simpl. rewrite loop_silent_expiring by assumption.
  set (w' := mkWatchdog _ _ EXPIRED _).
  destruct (run_silent_expired post
              (checkForBlink (millis it) (expirationCallback w d1)) w' Hs3 eq_refl)
    as [E3 E4].
  destruct (run post _) as [[d3 w3] fs3]. simpl in E3, E4. subst w3 fs3.
  simpl. split; reflexivity.
Qed.

End Silence.

(** C2. Over a continuous silence (passes of the loop in which no frame
    is dispatched) that starts with the watchdog armed and outlasts the
    timeout, the reinitialize action fires exactly once: at the first pass
    that finds the window exceeded, and at no later pass however long the
    silence goes on.  The watchdog stays expired through the silence; it
    is armed again by the dispatch of a frame with a registered name and
    by nothing else. *)
Theorem watchdog_fires_once_per_silence
  (its : list Iteration) (d : Device) (w : Watchdog) :
  forallb silent its = true ->
  watchdogState w = ARMED ->
  Exists (fun it => millis it - lastUpdateTimestamp w > timeoutThreshold w) its ->
  fireCount (snd (run its (d, w))) = 1%nat
  /\ (exists pre post : list Iteration,
        length its = S (length pre + length post)
        /\ snd (run its (d, w)) =
             replicate (length pre) false ++ true :: replicate (length post) false)
  /\ watchdogState (snd (fst (run its (d, w)))) = EXPIRED
  /\ (forall more,
        forallb silent more = true ->
        fireCount (snd (run (its ++ more) (d, w))) = 1%nat
        /\ watchdogState (snd (fst (run (its ++ more) (d, w)))) = EXPIRED)
  /\ (forall name v now s,
        watchdogState (snd (dispatch name v now s)) =
          if registeredIn name (commandHandlers registry)
          then ARMED else watchdogState (snd s))
  /\ (forall name v now s,
        lastUpdateTimestamp (snd (dispatch name v now s)) =
          if registeredIn name (commandHandlers registry)
          then now else lastUpdateTimestamp (snd s)).
Proof.
  intros Hs Ha Hex.
  assert (Hex' : Exists (fun it => timedOut (millis it) w = true) its).
  { eapply Exists_impl; [exact Hex|]. intros it Hit. simpl in Hit. unfold timedOut.
    destruct (Z.gtb_spec (millis it - lastUpdateTimestamp w) (timeoutThreshold w));
      [reflexivity|lia]. }
  destruct (first_timeout w its Hex') as (pre & it & post & -> & Hpre & Hit).
  destruct (run_silent_fires_once pre it post d w Hs Ha Hpre Hit) as [Hflags Hw].
  split; [|split; [|split; [|split; [|split]]]].
  - rewrite Hflags, fireCount_app. simpl. rewrite !fireCount_quiet. lia.
  - exists pre, post. split; [|exact Hflags].
    rewrite length_app. simpl. lia.
  - rewrite Hw. reflexivity.
  - intros more Hmore.
    assert (Hs' : forallb silent (pre ++ it :: post ++ more) = true).
    { rewrite forallb_app in Hs. apply andb_prop in Hs as [Hs1 Hs2].
      simpl in Hs2. apply andb_prop in Hs2 as [Hsit Hs3].
      rewrite forallb_app. simpl. rewrite forallb_app.
      rewrite Hs1, Hsit, Hs3, Hmore. reflexivity. }
    destruct (run_silent_fires_once pre it (post ++ more) d w Hs' Ha Hpre Hit)
      as [Hflags' Hw'].
    rewrite <- app_assoc. simpl.
    rewrite Hflags', Hw', fireCount_app. simpl. rewrite !fireCount_quiet.
    split; [lia|reflexivity].
  - intros name v now s. rewrite dispatch_watchdog.
    destruct (registeredIn _ _); reflexivity.
  - intros name v now s. rewrite dispatch_watchdog.
    destruct (registeredIn _ _); reflexivity.
Qed.

Lemma watchdog_fires_once_per_silence_witness :
  let its := [mkIteration 500 []; mkIteration 1200 [("XYZ"%string, 7)];
              mkIteration 1500 []; mkIteration 3000 []] in
  forallb silent its = true
  /\ fireCount (snd (run its (setup 1000))) = 1%nat
  /\ watchdogState (snd (fst (run its (setup 1000)))) = EXPIRED.
Proof.
  intros its.
  assert (Hs : forallb silent its = true) by reflexivity.
  assert (Hex : Exists (fun it => millis it - lastUpdateTimestamp (snd (setup 1000))
                                  > timeoutThreshold (snd (setup 1000))) its).
  { apply Exists_cons_tl, Exists_cons_hd. simpl. lia. }
  destruct (watchdog_fires_once_per_silence its (fst (setup 1000)) (snd (setup 1000))
              Hs eq_refl Hex) as (Hcount & _ & Hstate & _).
  split; [exact Hs|]. split; [exact Hcount|exact Hstate].
Defined.

(** ** What the host sees of a silence *)

Section SilenceOnTheWire.

Lemma quietlyExtends_refl d : quietlyExtends d d.
Proof.
  unfold quietlyExtends. repeat split.
  exists []. rewrite app_nil_r. split; reflexivity.
Qed.

Lemma quietlyExtends_trans d1 d2 d3 :
  quietlyExtends d1 d2 -> quietlyExtends d2 d3 -> quietlyExtends d1 d3.
Proof.
  intros (A1 & A2 & A3 & A4 & A5 & l & Hl & Fl) (B1 & B2 & B3 & B4 & B5 & k & Hk & Fk).
  unfold quietlyExtends. repeat split; try congruence.
  exists (l ++ k). rewrite Hk, Hl, <- app_assoc. split; [reflexivity|].
  rewrite List.filter_app, Fl, Fk. reflexivity.
Qed.

Lemma checkForBlink_quiet now d : quietlyExtends d (checkForBlink now d).
Proof.
  unfold checkForBlink.
  destruct (_ >? _); [|apply quietlyExtends_refl].
  unfold switchLedState. simpl.
  destruct (_ =? LOW); unfold quietlyExtends; simpl; repeat split;
    eexists; (split; [reflexivity|reflexivity]).
Qed.

(** Silent passes in which the watchdog has nothing to do: it has
    expired already, or its window is not exceeded. *)
Lemma run_silent_dormant its : forall d w,
  forallb silent its = true ->
  Forall (fun it => watchdogState w = EXPIRED \/ timedOut (millis it) w = false) its ->
  quietlyExtends d (fst (fst (run its (d, w))))
  /\ snd (fst (run its (d, w))) = w.
Proof.
  induction its as [|it its IH]; intros d w Hs Hd; simpl.
  - split; [apply quietlyExtends_refl|reflexivity].
  - simpl in Hs. apply andb_prop in Hs as [Hit Hrest].
    inversion Hd as [|? ? Hd1 Hd2]; subst.
    assert (Hloop : loop it (d, w) = (checkForBlink (millis it) d, w, false)).
    { destruct (watchdogState w) eqn:E.
      - destruct Hd1 as [?|Ht]; [discriminate|]. apply loop_silent_armed; assumption.
      - apply loop_silent_expired; assumption. }
    rewrite Hloop.
    destruct (IH (checkForBlink (millis it) d) w Hrest Hd2) as [E1 E2].
    destruct (run its (checkForBlink (millis it) d, w)) as [[d2 w2] fs].
    simpl in *. split; [|exact E2].
    eapply quietlyExtends_trans; [apply checkForBlink_quiet|exact E1].
Qed.

Lemma reinitialize_messages d :
  List.filter isUpdateMessage (reinitializeCalls d) = reinitializeMessages d.
Proof.
  unfold reinitializeCalls, servoCalls.
  rewrite !List.filter_app, !updates_of_motorCalls. reflexivity.
Qed.

(** Over a silence that outlasts the timeout, the update messages the
    sketch sends are those of a single reinitialization: one for each
    servo and motor, carrying the init values. *)
Lemma silence_sends_one_reinitialization (its : list Iteration) (d : Device) (w : Watchdog) :
  forallb silent its = true ->
  watchdogState w = ARMED ->
  expirationCallback w = initializeCommands ->
  Exists (fun it => timedOut (millis it) w = true) its ->
  List.filter isUpdateMessage (emitted d (fst (fst (run its (d, w))))) =
  reinitializeMessages d.
Proof.
  intros Hs Ha Hcb Hex.
  destruct (first_timeout w its Hex) as (pre & it & post & -> & Hpre & Hit).
  rewrite forallb_app in Hs. apply andb_prop in Hs as [Hs1 Hs2].
  simpl in Hs2. apply andb_prop in Hs2 as [Hsit Hs3].
  rewrite run_app.
  destruct (run_silent_dormant pre d w Hs1) as [Q1 W1].
  { eapply Forall_impl; [exact Hpre|]. intros; right; assumption. }
  destruct (run pre (d, w)) as [[d1 w1] fs1]. simpl in Q1, W1. subst w1.
  simpl. rewrite loop_silent_expiring by assumption. rewrite Hcb.
  set (w' := mkWatchdog _ _ EXPIRED _).
  set (d2 := checkForBlink (millis it) (initializeCommands d1)).
  destruct (run_silent_dormant post d2 w' Hs3) as [Q3 _].
  { apply Forall_forall. intros; left; reflexivity. }
  destruct (run post (d2, w')) as [[d3 w3] fs3]. simpl in Q3. simpl.
  assert (Q2 : quietlyExtends (initializeCommands d1) d3).
  { eapply quietlyExtends_trans; [apply checkForBlink_quiet|exact Q3]. }
  destruct Q1 as (_ & I1 & I2 & I3 & I4 & l1 & Hl1 & Fl1).
  destruct Q2 as (_ & _ & _ & _ & _ & l2 & Hl2 & Fl2).
  rewrite initializeCommands_eq in Hl2. simpl in Hl2.
  rewrite (emitted_app d d3 (l1 ++ reinitializeCalls d1 ++ l2)).
  - rewrite !List.filter_app, Fl1, Fl2, reinitialize_messages, app_nil_r.
    unfold reinitializeMessages. rewrite I1, I2, I3, I4. reflexivity.
  - rewrite Hl2, Hl1, <- !app_assoc. reflexivity.
Qed.

End SilenceOnTheWire.

(** * Properties of the host table *)

Section HostTable.

Lemma registerCommand_lookup name v (table table' : gmap string Z) other :
  Host.registerCommand name v table = inr table' ->
  table' !! other = if decide (name = other) then Some v else table !! other.
Proof.
  unfold Host.registerCommand.
  destruct (table !! name) eqn:E; [discriminate|].
  intros [= <-]. rewrite lookup_insert. reflexivity.
Qed.

(** The names in the table are those it started with and those
    registered since. *)
Lemma registerAll_registered config : forall (table table' : gmap string Z) name,
  Host.registerAll config table = inr table' ->
  table' !! name = None <-> table !! name = None /\ ~ In name (map fst config).
Proof.
  induction config as [|[n v] config IH]; intros table table' name; simpl.
  - intros [= ->]. tauto.
  - destruct (Host.registerCommand n v table) as [e|t1] eqn:E; [discriminate|].
    intros H. rewrite (IH _ _ name H).
    rewrite (registerCommand_lookup _ _ _ _ name E).
    destruct (decide (n = name)); split.
    + intros [? _]. discriminate.
    + intros [_ Hn]. exfalso. apply Hn. left. assumption.
    + intros [? ?]. split; [assumption|]. intros [?|?]; contradiction.
    + intros [? Hn]. split; [assumption|]. intros ?. apply Hn. right. assumption.
Qed.

Lemma updateCommand_dom name v (table table' : gmap string Z) :
  Host.updateCommand name v table = inr table' -> dom table' = dom table.
Proof.
  unfold Host.updateCommand.
  destruct (table !! name) eqn:E; [|discriminate].
  intros [= <-]. rewrite dom_insert_L.
  assert (Hin : name ∈ dom table) by (apply elem_of_dom; eauto).
  apply subseteq_union_1_L, singleton_subseteq_l, Hin.
Qed.

End HostTable.

(** C7. [updateCommand] on a name that was never registered fails with
    the unknown-command condition, handed back to the caller: this holds
    of every table, the empty one included, and of every table built by
    registering a configuration that does not list the name.  On a
    registered name it overwrites the stored current value, and only that
    one: the next transmission cycle sends the new value for the name. *)
Theorem updateCommand_unknown_or_overwrite
  (table : gmap string Z) (name : string) (value : Z) :
  (table !! name = None ->
   Host.updateCommand name value table = inl Host.UnknownCommand)
  /\ (forall config,
        Host.registerAll config ∅ = inr table ->
        ~ In name (map fst config) ->
        Host.updateCommand name value table = inl Host.UnknownCommand)
  /\ (is_Some (table !! name) ->
      exists table' : gmap string Z,
        Host.updateCommand name value table = inr table'
        /\ table' !! name = Some value
        /\ (forall other, other <> name -> table' !! other = table !! other)
        /\ (name, value) ∈ Host.transmissionCycle table'
        /\ (forall x, (name, x) ∈ Host.transmissionCycle table' -> x = value)).
Proof.
  assert (Hfail : table !! name = None ->
                  Host.updateCommand name value table = inl Host.UnknownCommand).
  { intros Hnone. unfold Host.updateCommand. rewrite Hnone. reflexivity. }
  split; [exact Hfail|]. split.
  - intros config Hreg Hnot. apply Hfail.
    apply (registerAll_registered config ∅ table name Hreg).
    split; [apply lookup_empty|exact Hnot].
  - intros [old Hold]. unfold Host.updateCommand. rewrite Hold.
    exists (<[name := value]> table).
    split; [reflexivity|]. split; [apply lookup_insert_eq|].
    split; [intros other Hne; apply lookup_insert_ne; congruence|].
    unfold Host.transmissionCycle. split.
    + apply elem_of_map_to_list, lookup_insert_eq.
    + intros x Hx. apply elem_of_map_to_list in Hx.
      rewrite lookup_insert_eq in Hx. congruence.
Qed.

Lemma updateCommand_unknown_or_overwrite_witness :
  let table : gmap string Z := <["X1"%string := 0]> ∅ in
  Host.updateCommand "X1"%string 50 ∅ = inl Host.UnknownCommand
  /\ Host.registerAll [("X1"%string, 0)] ∅ = inr table
  /\ Host.updateCommand "X2"%string 50 table = inl Host.UnknownCommand
  /\ exists table' : gmap string Z,
       Host.updateCommand "X1"%string 50 table = inr table'
       /\ table' !! "X1"%string = Some 50.
Proof.
  intros table.
  assert (Hreg : Host.registerAll [("X1"%string, 0)] ∅ = inr table) by reflexivity.
  assert (Hnot : ~ In "X2"%string (map fst [("X1"%string, 0)])).
  { intros [H|[]]. discriminate H. }
  assert (Hknown : is_Some (table !! "X1"%string)).
  { exists 0. apply lookup_insert_eq. }
  split.
  { exact (proj1 (updateCommand_unknown_or_overwrite ∅ "X1"%string 50)
             (lookup_empty _)). }
  split; [exact Hreg|]. split.
  { exact (proj1 (proj2 (updateCommand_unknown_or_overwrite table "X2"%string 50))
             [("X1"%string, 0)] Hreg Hnot). }
  destruct (proj2 (proj2 (updateCommand_unknown_or_overwrite table "X1"%string 50))
              Hknown) as (table' & Hok & Hval & _).
  exists table'. split; [exact Hok|exact Hval].
Defined.


(** * Further properties of the sketch *)

Import SketchCalls.

(** ** The blink timer *)

Section BlinkTimer.

Lemma ulong_shift a k : ulong (a + k * 2 ^ 32) = ulong a.
Proof. unfold ulong. apply Z_mod_plus_full. Qed.

Lemma ulong_wraps t : exists k, ulong t = t + k * 2 ^ 32.
Proof.
  exists (- (t / 2 ^ 32)). unfold ulong. rewrite Z.mod_eq by lia. lia.
Qed.

Lemma to_long_wraps t : exists k, to_long t = t + k * 2 ^ 32.
Proof.
  destruct (ulong_wraps t) as [k Hk]. unfold to_long.
  destruct (ulong t <? 2 ^ 31).
  - exists k. exact Hk.
  - exists (k - 1). rewrite Hk. lia.
Qed.

Lemma ulong_small a : 0 <= a < 2 ^ 32 -> ulong a = a.
Proof. intros H. unfold ulong. apply Z.mod_small. exact H. Qed.

(** The time the timer measures between a stored stamp and a later clock
    reading is the time that passed, also across a roll-over of the
    clock. *)
Lemma elapsed_since_stamp t0 delta :
  0 <= delta < 2 ^ 32 ->
  ulong (ulong (t0 + delta) - to_long t0) = delta.
Proof.
  intros Hd.
  destruct (ulong_wraps (t0 + delta)) as [k1 H1].
  destruct (to_long_wraps t0) as [k2 H2].
  rewrite H1, H2.
  replace (t0 + delta + k1 * 2 ^ 32 - (t0 + k2 * 2 ^ 32))
    with (delta + (k1 - k2) * 2 ^ 32) by lia.
  rewrite ulong_shift. apply ulong_small, Hd.
Qed.

Lemma checkForBlink_fires now d :
  (ulong (now - previousLedStateChange d) >? ulong (blinkInterval d)) = true ->
  checkForBlink now d =
    emit (DigitalWrite led (toggled (ledState d)))
      (set_ledState (toggled (ledState d))
         (set_previousLedStateChange (to_long now) d)).
Proof.
  intros H. unfold checkForBlink. rewrite H.
  unfold switchLedState, toggled. simpl.
  destruct (ledState d =? LOW); reflexivity.
Qed.

Lemma checkForBlink_rests now d :
  (ulong (now - previousLedStateChange d) >? ulong (blinkInterval d)) = false ->
  checkForBlink now d = d.
Proof. intros H. unfold checkForBlink. rewrite H. reflexivity. Qed.

End BlinkTimer.

(** X1. With a non-negative blink interval, [checkForBlink] toggles the LED
    exactly when more than the interval has passed since the stored time
    stamp, and this stays true when [millis()] rolls over between the stamp
    and the check: the clock reading is [t0 + delta] reduced modulo 2^32.
    When it toggles it writes the new level to pin 13 and stores the
    reading as the new stamp; otherwise it changes nothing. *)
Theorem checkForBlink_survives_rollover (d : Device) (t0 delta : Z) :
  0 <= delta < 2 ^ 32 ->
  0 <= blinkInterval d < 2 ^ 32 ->
  previousLedStateChange d = to_long t0 ->
  let now := ulong (t0 + delta) in
  if delta >? blinkInterval d then
    emitted d (checkForBlink now d) = [DigitalWrite led (toggled (ledState d))]
    /\ ledState (checkForBlink now d) = toggled (ledState d)
    /\ previousLedStateChange (checkForBlink now d) = to_long now
  else checkForBlink now d = d.
Proof.
  intros Hdelta Hint Hprev now.
  assert (Hcmp : (ulong (now - previousLedStateChange d) >? ulong (blinkInterval d))
                 = (delta >? blinkInterval d)).
  { unfold now. rewrite Hprev, elapsed_since_stamp by exact Hdelta.
    rewrite (ulong_small (blinkInterval d)) by exact Hint. reflexivity. }
  destruct (delta >? blinkInterval d) eqn:E.
  - rewrite checkForBlink_fires by exact Hcmp.
    split; [apply emitted_app; reflexivity|]. split; reflexivity.
  - apply checkForBlink_rests, Hcmp.
Qed.

Lemma checkForBlink_survives_rollover_witness :
  0 <= 300 < 2 ^ 32
  /\ emitted (set_previousLedStateChange (-96) bootDevice)
       (checkForBlink 204 (set_previousLedStateChange (-96) bootDevice))
     = [DigitalWrite led HIGH].
Proof.
  assert (Hdelta : 0 <= 300 < 2 ^ 32) by lia.
  assert (Hint : 0 <= blinkInterval (set_previousLedStateChange (-96) bootDevice) < 2 ^ 32).
  { simpl. lia. }
  assert (Hprev : previousLedStateChange (set_previousLedStateChange (-96) bootDevice)
                  = to_long (2 ^ 32 - 96)) by reflexivity.
  split; [exact Hdelta|].
  exact (proj1 (checkForBlink_survives_rollover
                  (set_previousLedStateChange (-96) bootDevice) (2 ^ 32 - 96) 300
                  Hdelta Hint Hprev)).
Defined.

(** X2. A negative blink interval is compared as an [unsigned long]: with
    an interval [b] in [-32768, 0) the LED is left alone as long as no more
    than [2^32 + b] milliseconds have passed since the stored stamp, that
    is for more than 49 days. *)
Theorem checkForBlink_negative_interval_stalls (d : Device) (t0 delta : Z) :
  - 2 ^ 15 <= blinkInterval d < 0 ->
  0 <= delta <= 2 ^ 32 + blinkInterval d ->
  previousLedStateChange d = to_long t0 ->
  checkForBlink (ulong (t0 + delta)) d = d.
Proof.
  intros Hb Hdelta Hprev.
  apply checkForBlink_rests.
  rewrite Hprev, elapsed_since_stamp by lia.
  replace (blinkInterval d) with (2 ^ 32 + blinkInterval d + (-1) * 2 ^ 32) by lia.
  rewrite ulong_shift, ulong_small by lia.
  destruct (Z.gtb_spec delta (2 ^ 32 + blinkInterval d)); [lia|reflexivity].
Qed.

Lemma checkForBlink_negative_interval_stalls_witness :
  blinkInterval (setBlinkInterval 0 (updateBlinkIntervalInit (-5) bootDevice)) = -5
  /\ checkForBlink 3600000 (setBlinkInterval 0 (updateBlinkIntervalInit (-5) bootDevice))
     = setBlinkInterval 0 (updateBlinkIntervalInit (-5) bootDevice).
Proof.
  split; [reflexivity|].
  apply (checkForBlink_negative_interval_stalls
           (setBlinkInterval 0 (updateBlinkIntervalInit (-5) bootDevice)) 0 3600000).
  - simpl. lia.
  - simpl. lia.
  - reflexivity.
Defined.

(** X3. A second [checkForBlink] at the same clock reading does nothing:
    the LED is toggled at most once per reading of the clock. *)
Theorem checkForBlink_once_per_reading (now : Z) (d : Device) :
  checkForBlink now (checkForBlink now d) = checkForBlink now d.
Proof.
  destruct (ulong (now - previousLedStateChange d) >? ulong (blinkInterval d)) eqn:E.
  - rewrite (checkForBlink_fires now d E).
    apply checkForBlink_rests. simpl.
    destruct (to_long_wraps now) as [k Hk]. rewrite Hk.
    replace (now - (now + k * 2 ^ 32)) with (0 + (- k) * 2 ^ 32) by lia.
    rewrite ulong_shift. change (ulong 0) with 0.
    destruct (Z.gtb_spec 0 (ulong (blinkInterval d))) as [Hlt|]; [|reflexivity].
    unfold ulong in Hlt.
    pose proof (Z.mod_pos_bound (blinkInterval d) (2 ^ 32)). lia.
  - rewrite (checkForBlink_rests now d E). apply checkForBlink_rests, E.
Qed.

(** ** One call at a time *)

Section SingleCalls.

(** What a call leaves of the globals and what it adds to the trace. *)
Lemma setBlinkInterval_eq v d :
  setBlinkInterval v d =
  if v <=? 0 then set_blinkInterval (blinkIntervalInit d) d
  else appendCalls [UpdateMessage BLINK (Z.max 10 (Z.min v 10000))]
         (set_blinkInterval (Z.max 10 (Z.min v 10000)) d).
Proof.
  unfold setBlinkInterval. destruct (v <=? 0); [reflexivity|].
  rewrite constrain_spec by lia. reflexivity.
Qed.

Lemma checkForBlink_cases now d :
  checkForBlink now d = d
  \/ checkForBlink now d =
       emit (DigitalWrite led (toggled (ledState d)))
         (set_ledState (toggled (ledState d))
            (set_previousLedStateChange (to_long now) d)).
Proof.
  destruct (ulong (now - previousLedStateChange d) >? ulong (blinkInterval d)) eqn:E.
  - right. apply checkForBlink_fires, E.
  - left. apply checkForBlink_rests, E.
Qed.

(** Every call only adds to the trace. *)
Lemma perform_extends c d : trace (perform c d) = trace d ++ emitted d (perform c d).
Proof.
  assert (H : exists l, trace (perform c d) = trace d ++ l).
  { destruct c; cbn [perform].
    - eexists; reflexivity.
    - rewrite setBlinkInterval_eq. destruct (v <=? 0).
      + exists []. simpl. symmetry. apply app_nil_r.
      + eexists; reflexivity.
    - eexists; reflexivity.
    - eexists; reflexivity.
    - rewrite setServo01_eq. eexists; reflexivity.
    - rewrite setServo02_eq. eexists; reflexivity.
    - eexists; reflexivity.
    - eexists; reflexivity.
    - rewrite setMotor01_eq. eexists; reflexivity.
    - rewrite setMotor02_eq. eexists; reflexivity.
    - rewrite initializeCommands_eq. eexists; reflexivity.
    - destruct (checkForBlink_cases currentMillis d) as [-> | ->].
      + exists []. symmetry. apply app_nil_r.
      + eexists; reflexivity. }
  destruct H as [l Hl]. rewrite (emitted_app _ _ _ Hl). exact Hl.
Qed.

Lemma performAll_cons c cs d : performAll (c :: cs) d = performAll cs (perform c d).
Proof. reflexivity. Qed.

Lemma performAll_app cs1 cs2 d :
  performAll (cs1 ++ cs2) d = performAll cs2 (performAll cs1 d).
Proof. unfold performAll. apply fold_left_app. Qed.

Lemma performAll_extends cs : forall d,
  trace (performAll cs d) = trace d ++ emitted d (performAll cs d).
Proof.
  induction cs as [|c cs IH]; intros d.
  - simpl. rewrite emitted_refl by reflexivity. symmetry. apply app_nil_r.
  - rewrite performAll_cons.
    assert (H : trace (performAll cs (perform c d)) =
                trace d ++ (emitted d (perform c d)
                            ++ emitted (perform c d) (performAll cs (perform c d)))).
    { rewrite app_assoc, <- perform_extends. apply IH. }
    rewrite (emitted_app _ _ _ H). exact H.
Qed.

(** The calls of a sequence are those of its first call followed by those
    of the rest. *)
Lemma emitted_performAll_cons c cs d :
  emitted d (performAll (c :: cs) d) =
  emitted d (perform c d) ++ emitted (perform c d) (performAll cs (perform c d)).
Proof.
  rewrite performAll_cons. apply emitted_app.
  rewrite app_assoc, <- perform_extends. apply performAll_extends.
Qed.

End SingleCalls.

(** ** The LED over a sequence of calls *)

Section LedLevels.

Lemma blinkLevels_app l k : blinkLevels (l ++ k) = blinkLevels l ++ blinkLevels k.
Proof. unfold blinkLevels. apply flat_map_app. Qed.

Lemma blinkLevels_motorCalls m v : blinkLevels (motorCalls m v) = [].
Proof. unfold motorCalls. repeat case_match; reflexivity. Qed.

Lemma blinkLevels_reinitializeCalls d : blinkLevels (reinitializeCalls d) = [].
Proof.
  unfold reinitializeCalls, servoCalls.
  rewrite !blinkLevels_app, !blinkLevels_motorCalls. reflexivity.
Qed.

(** A call either leaves the LED alone or toggles it and writes the new
    level. *)
Lemma perform_led c d :
  (ledState (perform c d) = ledState d
   /\ blinkLevels (emitted d (perform c d)) = [])
  \/ (ledState (perform c d) = toggled (ledState d)
      /\ blinkLevels (emitted d (perform c d)) = [toggled (ledState d)]).
Proof.
  destruct c; cbn [perform].
  - left. split; [reflexivity|]. rewrite (emitted_app _ _ [InitMessage BLINK v]); reflexivity.
  - left. rewrite setBlinkInterval_eq. destruct (v <=? 0).
    + split; [reflexivity|]. rewrite emitted_refl; reflexivity.
    + split; [reflexivity|]. rewrite emitted_appendCalls; reflexivity.
  - left. split; [reflexivity|]. rewrite (emitted_app _ _ [InitMessage SERVO_01 v]); reflexivity.
  - left. split; [reflexivity|]. rewrite (emitted_app _ _ [InitMessage SERVO_02 v]); reflexivity.
  - left. rewrite setServo01_eq. split; [reflexivity|].
    rewrite emitted_appendCalls; reflexivity.
  - left. rewrite setServo02_eq. split; [reflexivity|].
    rewrite emitted_appendCalls; reflexivity.
  - left. split; [reflexivity|]. rewrite (emitted_app _ _ [InitMessage MOTOR_01 v]); reflexivity.
  - left. split; [reflexivity|]. rewrite (emitted_app _ _ [InitMessage MOTOR_02 v]); reflexivity.
  - left. rewrite setMotor01_eq. split; [reflexivity|].
    rewrite emitted_appendCalls by reflexivity.
    rewrite blinkLevels_app, blinkLevels_motorCalls. reflexivity.
  - left. rewrite setMotor02_eq. split; [reflexivity|].
    rewrite emitted_appendCalls by reflexivity.
    rewrite blinkLevels_app, blinkLevels_motorCalls. reflexivity.
  - left. rewrite initializeCommands_eq. split; [reflexivity|].
    rewrite emitted_appendCalls by reflexivity. apply blinkLevels_reinitializeCalls.
  - destruct (checkForBlink_cases currentMillis d) as [-> | ->].
    + left. split; [reflexivity|]. rewrite emitted_refl; reflexivity.
    + right. split; [reflexivity|].
      rewrite (emitted_app _ _ [DigitalWrite led (toggled (ledState d))]); reflexivity.
Qed.

Lemma performAll_alternates cs : forall d,
  blinkLevels (emitted d (performAll cs d)) =
  alternating (toggled (ledState d))
    (length (blinkLevels (emitted d (performAll cs d)))).
Proof.
  induction cs as [|c cs IH]; intros d.
  - simpl. rewrite emitted_refl by reflexivity. reflexivity.
  - rewrite emitted_performAll_cons, blinkLevels_app.
    destruct (perform_led c d) as [[Hled Hnone]|[Hled Hone]].
    + rewrite Hnone. simpl. rewrite <- Hled. apply IH.
    + rewrite Hone. simpl. f_equal. rewrite <- Hled. apply IH.
Qed.

Lemma performAll_alternates_since_boot cs :
  blinkLevels (trace (performAll cs (setupServos bootDevice))) =
  alternating HIGH
    (length (blinkLevels (trace (performAll cs (setupServos bootDevice))))).
Proof.
  rewrite performAll_extends, blinkLevels_app. simpl.
  apply (performAll_alternates cs (setupServos bootDevice)).
Qed.

End LedLevels.

(** X4. Whatever the sketch is made to do, the levels it writes to the LED
    pin alternate: each write is the opposite of the one before, and the
    first is the opposite of the LED state at the start.  From boot, where
    the LED is LOW, the writes go HIGH, LOW, HIGH, ... *)
Theorem led_writes_alternate (cs : list Call) (d : Device) :
  blinkLevels (emitted d (performAll cs d)) =
    alternating (toggled (ledState d))
      (length (blinkLevels (emitted d (performAll cs d))))
  /\ blinkLevels (trace (performAll cs (setupServos bootDevice))) =
       alternating HIGH
         (length (blinkLevels (trace (performAll cs (setupServos bootDevice))))).
Proof.
  split; [apply performAll_alternates|apply performAll_alternates_since_boot].
Qed.

(** ** Actuator ranges over a sequence of calls *)

Section ActuatorRanges.

Lemma motorCalls_within m v : forallb withinActuatorRange (motorCalls m v) = true.
Proof.
  unfold motorCalls.
  destruct (Z.eqb_spec v 0); [reflexivity|].
  destruct (Z.ltb_spec 0 v); simpl; rewrite andb_true_r;
    apply andb_true_intro; split; apply Z.leb_le; lia.
Qed.

Lemma servoCalls_within s name v : forallb withinActuatorRange (servoCalls s name v) = true.
Proof.
  unfold servoCalls. simpl. rewrite andb_true_r.
  apply andb_true_intro; split; apply Z.leb_le; lia.
Qed.

Lemma toggled_level level : (toggled level =? LOW) || (toggled level =? HIGH) = true.
Proof. unfold toggled. destruct (level =? LOW); reflexivity. Qed.

Lemma perform_within c d :
  forallb withinActuatorRange (emitted d (perform c d)) = true.
Proof.
  destruct c; cbn [perform].
  - rewrite (emitted_app _ _ [InitMessage BLINK v]); reflexivity.
  - rewrite setBlinkInterval_eq. destruct (v <=? 0).
    + rewrite emitted_refl; reflexivity.
    + rewrite emitted_appendCalls; reflexivity.
  - rewrite (emitted_app _ _ [InitMessage SERVO_01 v]); reflexivity.
  - rewrite (emitted_app _ _ [InitMessage SERVO_02 v]); reflexivity.
  - rewrite setServo01_eq, emitted_appendCalls by reflexivity. apply servoCalls_within.
  - rewrite setServo02_eq, emitted_appendCalls by reflexivity. apply servoCalls_within.
  - rewrite (emitted_app _ _ [InitMessage MOTOR_01 v]); reflexivity.
  - rewrite (emitted_app _ _ [InitMessage MOTOR_02 v]); reflexivity.
  - rewrite setMotor01_eq, emitted_appendCalls by reflexivity.
    rewrite forallb_app, motorCalls_within. reflexivity.
  - rewrite setMotor02_eq, emitted_appendCalls by reflexivity.
    rewrite forallb_app, motorCalls_within. reflexivity.
  - rewrite initializeCommands_eq, emitted_appendCalls by reflexivity.
    unfold reinitializeCalls.
    rewrite !forallb_app, !servoCalls_within, !motorCalls_within. reflexivity.
  - destruct (checkForBlink_cases currentMillis d) as [-> | ->].
    + rewrite emitted_refl; reflexivity.
    + rewrite (emitted_app _ _ [DigitalWrite led (toggled (ledState d))]) by reflexivity.
      simpl. rewrite toggled_level. reflexivity.
Qed.

Lemma performAll_within cs : forall d,
  forallb withinActuatorRange (emitted d (performAll cs d)) = true.
Proof.
  induction cs as [|c cs IH]; intros d.
  - simpl. rewrite emitted_refl by reflexivity. reflexivity.
  - rewrite emitted_performAll_cons, forallb_app, perform_within, IH. reflexivity.
Qed.

Lemma performAll_within_since_boot cs :
  forallb withinActuatorRange (trace (performAll cs (setupServos bootDevice))) = true.
Proof.
  rewrite performAll_extends, forallb_app, performAll_within. reflexivity.
Qed.

End ActuatorRanges.

(** X5. No sequence of calls, whatever the values received and whatever
    init values were stored, makes the sketch hand an actuator a value
    outside its range: every servo position written lies in [0, 180],
    every motor speed set lies in [1, 255], and every digital write goes to
    pin 13 with level LOW or HIGH.  With the two positions [setup] writes,
    this holds of the whole trace since boot. *)
Theorem actuators_stay_within_range (cs : list Call) (d : Device) :
  forallb withinActuatorRange (emitted d (performAll cs d)) = true
  /\ forallb withinActuatorRange (trace (performAll cs (setupServos bootDevice))) = true.
Proof.
  split; [apply performAll_within|apply performAll_within_since_boot].
Qed.

(** ** Init values and the blink interval over a sequence of calls *)

Section Globals.

Lemma perform_keeps_inits c d :
  isInitCall c = false ->
  blinkIntervalInit (perform c d) = blinkIntervalInit d
  /\ servo01Init (perform c d) = servo01Init d
  /\ servo02Init (perform c d) = servo02Init d
  /\ motor01Init (perform c d) = motor01Init d
  /\ motor02Init (perform c d) = motor02Init d.
Proof.
  destruct c; cbn [perform isInitCall]; try discriminate; intros _.
  - rewrite setBlinkInterval_eq. destruct (v <=? 0); repeat split.
  - rewrite setServo01_eq. repeat split.
  - rewrite setServo02_eq. repeat split.
  - rewrite setMotor01_eq. repeat split.
  - rewrite setMotor02_eq. repeat split.
  - rewrite initializeCommands_eq. repeat split.
  - destruct (checkForBlink_cases currentMillis d) as [-> | ->]; repeat split.
Qed.

Lemma performAll_keeps_inits cs : forall d,
  forallb (fun c => negb (isInitCall c)) cs = true ->
  blinkIntervalInit (performAll cs d) = blinkIntervalInit d
  /\ servo01Init (performAll cs d) = servo01Init d
  /\ servo02Init (performAll cs d) = servo02Init d
  /\ motor01Init (performAll cs d) = motor01Init d
  /\ motor02Init (performAll cs d) = motor02Init d.
Proof.
  induction cs as [|c cs IH]; intros d H.
  - repeat split.
  - simpl in H. apply andb_prop in H as [Hc Hcs].
    apply negb_true_iff in Hc.
    rewrite performAll_cons.
    destruct (IH (perform c d) Hcs) as (A1 & A2 & A3 & A4 & A5).
    destruct (perform_keeps_inits c d Hc) as (B1 & B2 & B3 & B4 & B5).
    repeat split; congruence.
Qed.

Lemma perform_blink_bounds c d :
  storesOddBlinkInit c = false ->
  10 <= blinkIntervalInit d <= 10000 ->
  10 <= blinkInterval d <= 10000 ->
  10 <= blinkIntervalInit (perform c d) <= 10000
  /\ 10 <= blinkInterval (perform c d) <= 10000.
Proof.
  intros Hc Hi Hb.
  destruct c; cbn [perform storesOddBlinkInit] in *.
  - apply negb_false_iff, andb_prop in Hc as [H1 H2].
    apply Z.leb_le in H1, H2. simpl. lia.
  - rewrite setBlinkInterval_eq. destruct (v <=? 0); simpl; lia.
  - simpl. lia.
  - simpl. lia.
  - rewrite setServo01_eq. simpl. lia.
  - rewrite setServo02_eq. simpl. lia.
  - simpl. lia.
  - simpl. lia.
  - rewrite setMotor01_eq. simpl. lia.
  - rewrite setMotor02_eq. simpl. lia.
  - rewrite initializeCommands_eq. simpl. lia.
  - destruct (checkForBlink_cases currentMillis d) as [-> | ->]; simpl; lia.
Qed.

End Globals.

(** X6. The init values change through the init handlers only: a sequence
    of calls without an init handler, however long and whatever the
    values, leaves all five init values as they were. *)
Theorem init_values_change_only_by_init_handlers
  (cs : list Call) (d : Device) (name : string) :
  forallb (fun c => negb (isInitCall c)) cs = true ->
  initValue name (performAll cs d) = initValue name d.
Proof.
  intros H.
  destruct (performAll_keeps_inits cs d H) as (A1 & A2 & A3 & A4 & A5).
  unfold initValue. rewrite A1, A2, A3, A4, A5. reflexivity.
Qed.

Lemma init_values_change_only_by_init_handlers_witness :
  initValue SERVO_01
    (performAll [CallSetServo01 10; CallInitializeCommands; CallSetBlinkInterval 0;
                 CallCheckForBlink 5000; CallSetMotor02 (-300)]
       (setupServos bootDevice))
  = Some 90.
Proof.
  apply (init_values_change_only_by_init_handlers
           [CallSetServo01 10; CallInitializeCommands; CallSetBlinkInterval 0;
            CallCheckForBlink 5000; CallSetMotor02 (-300)]
           (setupServos bootDevice) SERVO_01).
  reflexivity.
Defined.

(** X7. As long as every blink init value stored lies in [10, 10000], the
    blink interval stays in [10, 10000] through any sequence of calls:
    updates are clamped into that range and every reset copies an init
    value that is in it. *)
Theorem blink_interval_stays_bounded (cs : list Call) (d : Device) :
  forallb (fun c => negb (storesOddBlinkInit c)) cs = true ->
  10 <= blinkIntervalInit d <= 10000 ->
  10 <= blinkInterval d <= 10000 ->
  10 <= blinkIntervalInit (performAll cs d) <= 10000
  /\ 10 <= blinkInterval (performAll cs d) <= 10000.
Proof.
  revert d. induction cs as [|c cs IH]; intros d H Hi Hb.
  - simpl. split; assumption.
  - simpl in H. apply andb_prop in H as [Hc Hcs].
    apply negb_true_iff in Hc.
    rewrite performAll_cons.
    destruct (perform_blink_bounds c d Hc Hi Hb) as [Hi' Hb'].
    apply IH; assumption.
Qed.

Lemma blink_interval_stays_bounded_witness :
  10 <= blinkInterval
          (performAll [CallSetBlinkInterval 3; CallUpdateBlinkIntervalInit 9000;
                       CallSetBlinkInterval (-1); CallSetBlinkInterval 30000;
                       CallInitializeCommands]
             (setupServos bootDevice)) <= 10000.
Proof.
  apply (blink_interval_stays_bounded
           [CallSetBlinkInterval 3; CallUpdateBlinkIntervalInit 9000;
            CallSetBlinkInterval (-1); CallSetBlinkInterval 30000;
            CallInitializeCommands]
           (setupServos bootDevice)).
  - reflexivity.
  - simpl. lia.
  - simpl. lia.
Defined.

(** ** Motors and servos *)

Section MotorsAndServos.

Lemma sameMotor_sym a b : sameMotor a b = sameMotor b a.
Proof. destruct a, b; reflexivity. Qed.

(** The calls for one motor mean nothing to the other. *)
Lemma motorCalls_other m m' v st :
  sameMotor m m' = false ->
  fold_left (motorApply m) (motorCalls m' v) st = st.
Proof.
  intros H. unfold motorCalls. repeat case_match; simpl; rewrite ?H; reflexivity.
Qed.

Lemma signedSpeed_motorCalls m v st :
  signedSpeed (fold_left (motorApply m) (motorCalls m v) st) = Z.max (-255) (Z.min v 255).
Proof.
  unfold motorCalls.
  destruct (Z.eqb_spec v 0) as [->|Hv]; simpl.
  - rewrite sameMotor_refl. reflexivity.
  - destruct (Z.ltb_spec 0 v); simpl; rewrite !sameMotor_refl;
      unfold signedSpeed; simpl; lia.
Qed.

Lemma motorApply_servoCalls m s name v st :
  fold_left (motorApply m) (servoCalls s name v) st = st.
Proof. reflexivity. Qed.

Lemma noteWrite_other s s' name v acc :
  sameServo s s' = false ->
  fold_left (noteWrite s) (servoCalls s' name v) acc = acc.
Proof. intros H. simpl. rewrite H. reflexivity. Qed.

Lemma noteWrite_same s name v acc :
  fold_left (noteWrite s) (servoCalls s name v) acc = Some (Z.max 0 (Z.min v 180)).
Proof. simpl. destruct s; reflexivity. Qed.

End MotorsAndServos.

(** X8. The motor round trip: the direction and speed a motor is left with
    by [setMotorSpeed], read back as a signed speed, are the value received
    clamped into [-255, 255], whatever the motor was doing before.  The
    handlers [setMotor01] and [setMotor02] pass this on for their motor. *)
Theorem motor_keeps_clamped_signed_speed (m : MotorId) (v : Z) (d : Device) :
  signedSpeed (motorState m (trace (setMotorSpeed m v d))) = Z.max (-255) (Z.min v 255)
  /\ signedSpeed (motorState Motor01 (trace (setMotor01 v d))) = Z.max (-255) (Z.min v 255)
  /\ signedSpeed (motorState Motor02 (trace (setMotor02 v d))) = Z.max (-255) (Z.min v 255).
Proof.
  split; [|split].
  - rewrite trace_setMotorSpeed, motorState_app. apply signedSpeed_motorCalls.
  - rewrite setMotor01_eq. simpl trace.
    rewrite motorState_app, fold_left_app. simpl. apply signedSpeed_motorCalls.
  - rewrite setMotor02_eq. simpl trace.
    rewrite motorState_app, fold_left_app. simpl. apply signedSpeed_motorCalls.
Qed.

(** X9. The update handlers keep to their own actuator.  A motor handler
    leaves the other motor and both servos as they are, a servo handler
    leaves the other servo and both motors, the blink handler leaves all
    four; and none of the servo and motor handlers touches the blink
    interval. *)
Theorem update_handlers_keep_to_their_actuator (v : Z) (d : Device) :
  (motorState Motor02 (trace (setMotor01 v d)) = motorState Motor02 (trace d)
   /\ motorState Motor01 (trace (setMotor02 v d)) = motorState Motor01 (trace d)
   /\ forall s, servoPosition s (trace (setMotor01 v d)) = servoPosition s (trace d)
                /\ servoPosition s (trace (setMotor02 v d)) = servoPosition s (trace d))
  /\ (servoPosition Servo02 (trace (setServo01 v d)) = servoPosition Servo02 (trace d)
      /\ servoPosition Servo01 (trace (setServo02 v d)) = servoPosition Servo01 (trace d)
      /\ forall m, motorState m (trace (setServo01 v d)) = motorState m (trace d)
                   /\ motorState m (trace (setServo02 v d)) = motorState m (trace d))
  /\ (forall s m, servoPosition s (trace (setBlinkInterval v d)) = servoPosition s (trace d)
                  /\ motorState m (trace (setBlinkInterval v d)) = motorState m (trace d))
  /\ blinkInterval (setServo01 v d) = blinkInterval d
  /\ blinkInterval (setServo02 v d) = blinkInterval d
  /\ blinkInterval (setMotor01 v d) = blinkInterval d
  /\ blinkInterval (setMotor02 v d) = blinkInterval d.
Proof.
  rewrite setMotor01_eq, setMotor02_eq, setServo01_eq, setServo02_eq, setBlinkInterval_eq.
  simpl trace.
  split; [|split; [|split; [|repeat split]]].
  - split; [|split].
    + rewrite motorState_app, fold_left_app, motorCalls_other; reflexivity.
    + rewrite motorState_app, fold_left_app, motorCalls_other; reflexivity.
    + intros s. rewrite !servoPosition_app, !fold_left_app, !noteWrite_motorCalls.
      split; reflexivity.
  - split; [|split].
    + rewrite servoPosition_app, noteWrite_other; reflexivity.
    + rewrite servoPosition_app, noteWrite_other; reflexivity.
    + intros m. rewrite !motorState_app. split; reflexivity.
  - intros s m. destruct (v <=? 0); simpl trace.
    + split; reflexivity.
    + rewrite servoPosition_app, motorState_app. split; reflexivity.
Qed.

(** X10. For a value inside the range of its actuator the device applies
    what it was sent and reports what it applied: a blink interval in
    [10, 10000], a servo position in [0, 180] and a motor speed in
    [-255, 255] reach the blink timer, the servo and the motor unchanged,
    and the update message carries the same value. *)
Theorem in_range_values_pass_unchanged (b s m : Z) (d : Device) :
  10 <= b <= 10000 ->
  0 <= s <= 180 ->
  -255 <= m <= 255 ->
  (blinkInterval (setBlinkInterval b d) = b
   /\ emitted d (setBlinkInterval b d) = [UpdateMessage BLINK b])
  /\ (servoPosition Servo01 (trace (setServo01 s d)) = Some s
      /\ currentValue SERVO_01 (setServo01 s d) = Some s)
  /\ (servoPosition Servo02 (trace (setServo02 s d)) = Some s
      /\ currentValue SERVO_02 (setServo02 s d) = Some s)
  /\ (signedSpeed (motorState Motor01 (trace (setMotor01 m d))) = m
      /\ currentValue MOTOR_01 (setMotor01 m d) = Some m)
  /\ (signedSpeed (motorState Motor02 (trace (setMotor02 m d))) = m
      /\ currentValue MOTOR_02 (setMotor02 m d) = Some m).
Proof.
  intros Hb Hs Hm.
  unfold currentValue. decide_names.
  rewrite setMotor01_eq, setMotor02_eq, setServo01_eq, setServo02_eq, setBlinkInterval_eq.
  destruct (Z.leb_spec b 0); [lia|].
  simpl trace.
  rewrite !servoPosition_app, !motorState_app, !lastUpdateMessage_app, !fold_left_app.
  cbn [fold_left motorApply].
  rewrite !noteWrite_same, !signedSpeed_motorCalls, !noteUpdate_motorCalls.
  replace (Z.max 10 (Z.min b 10000)) with b by lia.
  replace (Z.max 0 (Z.min s 180)) with s by lia.
  replace (Z.max (-255) (Z.min m 255)) with m by lia.
  repeat split.
  rewrite emitted_appendCalls; reflexivity.
Qed.

Lemma in_range_values_pass_unchanged_witness :
  (10 <= 500 <= 10000 /\ 0 <= 45 <= 180 /\ -255 <= -120 <= 255)
  /\ blinkInterval (setBlinkInterval 500 bootDevice) = 500
  /\ servoPosition Servo01 (trace (setServo01 45 bootDevice)) = Some 45
  /\ signedSpeed (motorState Motor02 (trace (setMotor02 (-120) bootDevice))) = -120.
Proof.
  assert (Hb : 10 <= 500 <= 10000) by lia.
  assert (Hs : 0 <= 45 <= 180) by lia.
  assert (Hm : -255 <= -120 <= 255) by lia.
  destruct (in_range_values_pass_unchanged 500 45 (-120) bootDevice Hb Hs Hm)
    as ((H1 & _) & (H2 & _) & _ & _ & (H5 & _)).
  split; [split; [exact Hb|split; [exact Hs|exact Hm]]|].
  split; [exact H1|]. split; [exact H2|exact H5].
Defined.

(** ** The safe state *)

Section SafeState.

(** What the calls of one reinitialization leave on the actuators,
    whatever came before them in the trace. *)
Lemma outputs_of_reinitializeCalls d t :
  servoPosition Servo01 (t ++ reinitializeCalls d) = Some (Z.max 0 (Z.min (servo01Init d) 180))
  /\ servoPosition Servo02 (t ++ reinitializeCalls d) = Some (Z.max 0 (Z.min (servo02Init d) 180))
  /\ signedSpeed (motorState Motor01 (t ++ reinitializeCalls d))
     = Z.max (-255) (Z.min (motor01Init d) 255)
  /\ signedSpeed (motorState Motor02 (t ++ reinitializeCalls d))
     = Z.max (-255) (Z.min (motor02Init d) 255).
Proof.
  unfold reinitializeCalls.
  rewrite !servoPosition_app, !motorState_app, !fold_left_app.
  rewrite !motorApply_servoCalls, !noteWrite_motorCalls.
  cbn [fold_left motorApply noteWrite].
  rewrite (motorCalls_other Motor01 Motor02) by reflexivity.
  rewrite noteWrite_same, (noteWrite_other Servo01 Servo02) by reflexivity.
  rewrite noteWrite_same, !signedSpeed_motorCalls.
  repeat split.
Qed.

End SafeState.

(** X11. The state the watchdog falls back to depends on the init values
    alone.  After any sequence of updates, reinitializations and blink
    checks (no init handler among them), [initializeCommands] leaves the
    blink interval at the blink init value, both servos at their init
    positions clamped into [0, 180] and both motors at their init speeds
    clamped into [-255, 255]: nothing of what was received in between
    shows. *)
Theorem safe_state_forgets_updates (cs : list Call) (d : Device) :
  forallb (fun c => negb (isInitCall c)) cs = true ->
  let safe := initializeCommands (performAll cs d) in
  blinkInterval safe = blinkIntervalInit d
  /\ servoPosition Servo01 (trace safe) = Some (Z.max 0 (Z.min (servo01Init d) 180))
  /\ servoPosition Servo02 (trace safe) = Some (Z.max 0 (Z.min (servo02Init d) 180))
  /\ signedSpeed (motorState Motor01 (trace safe)) = Z.max (-255) (Z.min (motor01Init d) 255)
  /\ signedSpeed (motorState Motor02 (trace safe)) = Z.max (-255) (Z.min (motor02Init d) 255).
Proof.
  intros H safe. unfold safe.
  destruct (performAll_keeps_inits cs d H) as (A1 & A2 & A3 & A4 & A5).
  rewrite initializeCommands_eq. simpl blinkInterval. simpl trace.
  destruct (outputs_of_reinitializeCalls (performAll cs d) (trace (performAll cs d)))
    as (B1 & B2 & B3 & B4).
  rewrite B1, B2, B3, B4, A1, A2, A3, A4, A5. repeat split.
Qed.

Lemma safe_state_forgets_updates_witness :
  let safe := initializeCommands
                (performAll [CallSetServo01 170; CallSetMotor01 (-200);
                             CallSetBlinkInterval 1000; CallCheckForBlink 7000]
                   (setupServos bootDevice)) in
  blinkInterval safe = 250
  /\ servoPosition Servo01 (trace safe) = Some 90
  /\ signedSpeed (motorState Motor01 (trace safe)) = 0.
Proof.
  intros safe.
  destruct (safe_state_forgets_updates
              [CallSetServo01 170; CallSetMotor01 (-200);
               CallSetBlinkInterval 1000; CallCheckForBlink 7000]
              (setupServos bootDevice) eq_refl) as (H1 & H2 & _ & H4 & _).
  split; [exact H1|]. split; [exact H2|exact H4].
Defined.

(** X12. Reinitializing twice is reinitializing once: a second
    [initializeCommands] right after the first changes no global and makes
    the very calls the first one made. *)
Theorem initializeCommands_twice (d : Device) :
  initializeCommands (initializeCommands d) =
  appendCalls (emitted d (initializeCommands d)) (initializeCommands d).
Proof.
  rewrite (initializeCommands_eq (initializeCommands d)).
  rewrite (initializeCommands_eq d).
  rewrite emitted_appendCalls by reflexivity.
  destruct d. reflexivity.
Qed.

(** ** The loop as a sequence of calls *)

Section LoopCalls.

Lemma dispatch_calls name v now d w :
  fst (dispatch name v now (d, w)) = performAll (callOfFrame (name, v)) d
  /\ expirationCallback (snd (dispatch name v now (d, w))) = expirationCallback w.
Proof.
  unfold dispatch, lookupHandler, callOfFrame.
  rewrite commandHandlers_registry. cbn [find fst snd].
  destruct (String.eqb name BLINK); [split; reflexivity|].
  destruct (String.eqb name SERVO_01); [split; reflexivity|].
  destruct (String.eqb name SERVO_02); [split; reflexivity|].
  destruct (String.eqb name MOTOR_01); [split; reflexivity|].
  destruct (String.eqb name MOTOR_02); split; reflexivity.
Qed.

Lemma processSerialData_calls it d w :
  fst (processSerialData it (d, w)) = performAll (flat_map callOfFrame (received it)) d
  /\ expirationCallback (snd (processSerialData it (d, w))) = expirationCallback w.
Proof.
  unfold processSerialData. generalize (received it) as frames. intros frames.
  revert d w. induction frames as [|[name v] frames IH]; intros d w.
  - split; reflexivity.
  - cbn [fold_left flat_map fst snd].
    destruct (dispatch_calls name v (millis it) d w) as [Hd Hw].
    destruct (dispatch name v (millis it) (d, w)) as [d1 w1]. cbn [fst snd] in Hd, Hw.
    destruct (IH d1 w1) as [Hd' Hw'].
    rewrite performAll_app, <- Hd. split; [exact Hd'|congruence].
Qed.

(** One pass of [loop] is a sequence of calls: the update handlers of the
    frames dispatched, [initializeCommands] if the watchdog fires, then
    [checkForBlink]. *)
Lemma loop_calls it d w :
  expirationCallback w = initializeCommands ->
  exists cs,
    fst (fst (loop it (d, w))) = performAll cs d
    /\ expirationCallback (snd (fst (loop it (d, w)))) = initializeCommands.
Proof.
  intros Hcb. unfold loop.
  destruct (processSerialData_calls it d w) as [Hd Hw].
  destruct (processSerialData it (d, w)) as [d1 w1]. simpl in Hd, Hw.
  rewrite Hcb in Hw.
  unfold checkForUpdateExpiration.
  destruct (watchdogState w1); [destruct (timedOut (millis it) w1)|]; simpl.
  - exists (flat_map callOfFrame (received it)
            ++ [CallInitializeCommands; CallCheckForBlink (millis it)]).
    rewrite performAll_app, <- Hd, Hw. split; reflexivity.
  - exists (flat_map callOfFrame (received it) ++ [CallCheckForBlink (millis it)]).
    rewrite performAll_app, <- Hd. split; [reflexivity|exact Hw].
  - exists (flat_map callOfFrame (received it) ++ [CallCheckForBlink (millis it)]).
    rewrite performAll_app, <- Hd. split; [reflexivity|exact Hw].
Qed.

Lemma run_calls its : forall d w,
  expirationCallback w = initializeCommands ->
  exists cs, fst (fst (run its (d, w))) = performAll cs d.
Proof.
  induction its as [|it its IH]; intros d w Hcb.
  - exists []. reflexivity.
  - simpl. destruct (loop_calls it d w Hcb) as (cs1 & Hd & Hw).
    destruct (loop it (d, w)) as [[d1 w1] fired]. simpl in Hd, Hw.
    destruct (IH d1 w1 Hw) as (cs2 & Hd2).
    destruct (run its (d1, w1)) as [[d2 w2] fs]. simpl in *.
    exists (cs1 ++ cs2). rewrite performAll_app, <- Hd. exact Hd2.
Qed.

End LoopCalls.

(** X13. The same holds of the sketch as it runs.  Over any number of
    passes of [loop] after [setup], whatever frames arrive and whenever the
    watchdog fires, every value handed to an actuator is within its range
    and the LED writes alternate, starting with HIGH. *)
Theorem loop_keeps_actuators_within_range (its : list Iteration) (timeout : Z) :
  forallb withinActuatorRange (trace (fst (fst (run its (setup timeout))))) = true
  /\ blinkLevels (trace (fst (fst (run its (setup timeout))))) =
       alternating HIGH
         (length (blinkLevels (trace (fst (fst (run its (setup timeout))))))).
Proof.
  destruct (run_calls its (setupServos bootDevice)
              (setupUpdateHandler timeout initializeCommands) eq_refl) as [cs Hcs].
  unfold setup. rewrite Hcs.
  split; [apply performAll_within_since_boot|apply performAll_alternates_since_boot].
Qed.

(** ** What the host knows of the actuators *)

Section HostMirror.

Lemma perform_trace c d : trace (perform c d) = trace d ++ callsMade c d.
Proof.
  destruct c; cbn [perform callsMade]; try reflexivity.
  - rewrite setBlinkInterval_eq. destruct (v <=? 0); [|reflexivity].
    simpl. symmetry. apply app_nil_r.
  - rewrite setServo01_eq. reflexivity.
  - rewrite setServo02_eq. reflexivity.
  - rewrite setMotor01_eq. reflexivity.
  - rewrite setMotor02_eq. reflexivity.
  - rewrite initializeCommands_eq. reflexivity.
  - destruct (ulong (currentMillis - previousLedStateChange d) >? ulong (blinkInterval d)) eqn:E.
    + rewrite checkForBlink_fires by exact E. reflexivity.
    + rewrite checkForBlink_rests by exact E. symmetry. apply app_nil_r.
Qed.

(** Calls that say nothing about a servo, and calls that move it and
    report the move. *)
Lemma servoMirrors_neutral s name t l :
  (forall acc, fold_left (noteUpdate name) l acc = acc) ->
  (forall acc, fold_left (noteWrite s) l acc = acc) ->
  servoMirrors s name t -> servoMirrors s name (t ++ l).
Proof.
  intros Hu Hw. unfold servoMirrors.
  rewrite lastUpdateMessage_app, servoPosition_app, Hu, Hw. tauto.
Qed.

Lemma servoMirrors_sets s name t l v :
  (forall acc, fold_left (noteUpdate name) l acc = Some v) ->
  (forall acc, fold_left (noteWrite s) l acc = Some (Z.max 0 (Z.min v 180))) ->
  servoMirrors s name (t ++ l).
Proof.
  intros Hu Hw. unfold servoMirrors.
  rewrite lastUpdateMessage_app, servoPosition_app, Hu, Hw. reflexivity.
Qed.

Lemma motorMirrors_neutral m name t l :
  (forall acc, fold_left (noteUpdate name) l acc = acc) ->
  (forall st, fold_left (motorApply m) l st = st) ->
  motorMirrors m name t -> motorMirrors m name (t ++ l).
Proof.
  intros Hu Hw. unfold motorMirrors.
  rewrite lastUpdateMessage_app, motorState_app, Hu, Hw. tauto.
Qed.

Lemma motorMirrors_sets m name t l v :
  (forall acc, fold_left (noteUpdate name) l acc = Some v) ->
  (forall st, signedSpeed (fold_left (motorApply m) l st) = Z.max (-255) (Z.min v 255)) ->
  motorMirrors m name (t ++ l).
Proof.
  intros Hu Hw. unfold motorMirrors.
  rewrite lastUpdateMessage_app, motorState_app, Hu, Hw. reflexivity.
Qed.

End HostMirror.

(** Settles what a list of outgoing calls does to the host's last news of
    a command, to a servo position or to a motor state. *)
Ltac settle_folds :=
  intros;
  unfold reinitializeCalls, servoCalls;
  rewrite ?fold_left_app;
  cbn [fold_left noteUpdate noteWrite motorApply sameServo];
  rewrite ?noteUpdate_motorCalls, ?noteWrite_motorCalls;
  rewrite ?(motorCalls_other Motor01 Motor02), ?(motorCalls_other Motor02 Motor01)
    by reflexivity;
  cbn [fold_left noteUpdate noteWrite motorApply sameServo];
  decide_names;
  first [reflexivity | apply signedSpeed_motorCalls].

Ltac split_calls :=
  repeat match goal with
         | |- context [if ?c then _ else _] => destruct c
         end.

Section HostMirrorSteps.

Lemma perform_servo01_mirror c d :
  servoMirrors Servo01 SERVO_01 (trace d) ->
  servoMirrors Servo01 SERVO_01 (trace (perform c d)).
Proof.
  intros H. rewrite perform_trace.
  destruct c; cbn [callsMade]; split_calls;
    first [ apply servoMirrors_neutral; [settle_folds | settle_folds | exact H]
          | eapply servoMirrors_sets; [settle_folds | settle_folds] ].
Qed.

Lemma perform_servo02_mirror c d :
  servoMirrors Servo02 SERVO_02 (trace d) ->
  servoMirrors Servo02 SERVO_02 (trace (perform c d)).
Proof.
  intros H. rewrite perform_trace.
  destruct c; cbn [callsMade]; split_calls;
    first [ apply servoMirrors_neutral; [settle_folds | settle_folds | exact H]
          | eapply servoMirrors_sets; [settle_folds | settle_folds] ].
Qed.

Lemma perform_motor01_mirror c d :
  motorMirrors Motor01 MOTOR_01 (trace d) ->
  motorMirrors Motor01 MOTOR_01 (trace (perform c d)).
Proof.
  intros H. rewrite perform_trace.
  destruct c; cbn [callsMade]; split_calls;
    first [ apply motorMirrors_neutral; [settle_folds | settle_folds | exact H]
          | eapply motorMirrors_sets; [settle_folds | settle_folds] ].
Qed.

Lemma perform_motor02_mirror c d :
  motorMirrors Motor02 MOTOR_02 (trace d) ->
  motorMirrors Motor02 MOTOR_02 (trace (perform c d)).
Proof.
  intros H. rewrite perform_trace.
  destruct c; cbn [callsMade]; split_calls;
    first [ apply motorMirrors_neutral; [settle_folds | settle_folds | exact H]
          | eapply motorMirrors_sets; [settle_folds | settle_folds] ].
Qed.

End HostMirrorSteps.

(** X14. What the host was last told about a servo or a motor is what the
    actuator is doing, up to clamping.  Through any sequence of calls: if
    an update message for SRV1 or SRV2 was sent, the servo stands at the
    value of the last one clamped into [0, 180]; if one was sent for MTR1
    or MTR2, the motor turns at the value of the last one clamped into
    [-255, 255], forward if positive and backward if negative. *)
Theorem host_mirrors_actuators (cs : list Call) (d : Device) :
  hostMirrorsActuators (trace d) ->
  hostMirrorsActuators (trace (performAll cs d)).
Proof.
  revert d. induction cs as [|c cs IH]; intros d H; [exact H|].
  rewrite performAll_cons. apply IH.
  destruct H as (H1 & H2 & H3 & H4).
  split; [|split; [|split]].
  - apply perform_servo01_mirror, H1.
  - apply perform_servo02_mirror, H2.
  - apply perform_motor01_mirror, H3.
  - apply perform_motor02_mirror, H4.
Qed.

Lemma host_mirrors_actuators_witness :
  hostMirrorsActuators (trace (setupServos bootDevice))
  /\ hostMirrorsActuators
       (trace (performAll [CallSetServo01 200; CallUpdateServo01Init 300;
                           CallSetMotor02 (-400); CallInitializeCommands;
                           CallSetMotor01 30]
                 (setupServos bootDevice))).
Proof.
  assert (H0 : hostMirrorsActuators (trace (setupServos bootDevice))).
  { repeat split. }
  split; [exact H0|].
  exact (host_mirrors_actuators
           [CallSetServo01 200; CallUpdateServo01Init 300;
            CallSetMotor02 (-400); CallInitializeCommands; CallSetMotor01 30]
           (setupServos bootDevice) H0).
Defined.
